(** * gdelt_bulk_downloader.py: a shallow embedding

    The program downloads the GDELT GKG archives listed in a manifest,
    stores them under [OUTPUT_ROOT/<year>/<raw>/] and extracts them.  This
    file embeds [parse_masterfiles], [download_task], [extract_one] and
    [main], together with the Python library calls they rely on
    ([str.split], [int], [pathlib], [zipfile], [requests]), and states the
    properties of the specification over that embedding.

    Modelling conventions:
    - text is ASCII: a [string] is a sequence of one-byte characters, and
      the whitespace and digit classes are the ASCII ones;
    - integers are [Z] (Python's [int] is unbounded);
    - the thread (or process) pool is run as one schedule: its tasks one
      after the other, in submission order;
    - the HTTP sessions and their connection pools ([make_session]) and
      the rendering of the progress bars have no effect on what is stated
      here and are left out;
    - of the faults of the disk, those that the program catches are
      modelled (an archive that cannot be opened, a member that cannot
      be written, an attempt that fails while the archive is streamed);
      those it does not catch are not ([mkdir] or [open] on a path that
      is barred, a full disk, a missing permission). *)

From Stdlib Require Import ZArith Ascii String List Lia.
From stdpp Require Import gmap strings list pretty.

Local Open Scope Z_scope.

(** ** Python strings *)

Module Py.

(** [str.isspace] on an ASCII character: TAB, LF, VT, FF, CR, the four
    separators FS, GS, RS, US, and the blank. *)
Definition isspace (c : ascii) : bool :=
  match c with
  | "009" | "010" | "011" | "012" | "013"
  | "028" | "029" | "030" | "031" | " " => true
  | _ => false
  end%char.

Definition snoc (s : string) (c : ascii) : string := s +:+ String c "".

(** [s.split()]: the maximal runs of characters that are not whitespace. *)
Fixpoint split_go (cur : string) (s : string) : list string :=
  match s with
  | "" => if decide (cur = "") then [] else [cur]
  | String c s' =>
      if isspace c
      then (if decide (cur = "") then [] else [cur]) ++ split_go "" s'
      else split_go (snoc cur c) s'
  end.
Definition split (s : string) : list string := split_go "" s.

Fixpoint lstrip (s : string) : string :=
  match s with
  | String c s' => if isspace c then lstrip s' else s
  | "" => ""
  end.
Fixpoint rstrip (s : string) : string :=
  match s with
  | String c s' =>
      let r := rstrip s' in
      if decide (r = "") then (if isspace c then "" else String c "")
      else String c r
  | "" => ""
  end.
(** [s.strip()] *)
Definition strip (s : string) : string := rstrip (lstrip s).

(** [s.split(sep)] for a one-character separator: never empty. *)
Fixpoint split_on_go (sep : ascii) (cur : string) (s : string) : list string :=
  match s with
  | "" => [cur]
  | String c s' =>
      if decide (c = sep) then cur :: split_on_go sep "" s'
      else split_on_go sep (snoc cur c) s'
  end.
Definition split_on (sep : ascii) (s : string) : list string :=
  split_on_go sep "" s.

(** [s.endswith(suffix)] *)
Definition endswith (s suffix : string) : bool :=
  let n := String.length s in
  let m := String.length suffix in
  bool_decide (m ≤ n)%nat
  && bool_decide (String.substring (n - m) m s = suffix).

(** [s[:n]] for [n >= 0] and [s[:-n]] for [n > 0]. *)
Definition slice_to (n : nat) (s : string) : string :=
  String.substring 0 n s.
Definition slice_drop_last (n : nat) (s : string) : string :=
  String.substring 0 (String.length s - n) s.

Definition digit (c : ascii) : option Z :=
  Z.of_nat <$> Ascii.is_nat c.

(** The digits of an integer literal as [int] reads them in base 10:
    decimal digits, with single underscores allowed between two digits.
    [seen] tells whether the previous character was a digit. *)
Fixpoint int_digits (acc : Z) (seen : bool) (s : string) : option Z :=
  match s with
  | "" => if seen then Some acc else None
  | String c s' =>
      match digit c with
      | Some d => int_digits (10 * acc + d) true s'
      | None =>
          if bool_decide (c = "_"%char) && seen
          then int_digits acc false s'
          else None
      end
  end.

(** The whitespace that [int] skips around a literal: TAB, LF, VT, FF,
    CR and the blank.  The separators FS, GS, RS and US, which
    [str.isspace] accepts, are not skipped. *)
Definition isspace_int (c : ascii) : bool :=
  match c with
  | "009" | "010" | "011" | "012" | "013" | " " => true
  | _ => false
  end%char.

Fixpoint lstrip_int (s : string) : string :=
  match s with
  | String c s' => if isspace_int c then lstrip_int s' else s
  | "" => ""
  end.
Fixpoint rstrip_int (s : string) : string :=
  match s with
  | String c s' =>
      let r := rstrip_int s' in
      if decide (r = "") then (if isspace_int c then "" else String c "")
      else String c r
  | "" => ""
  end.

(** [int(s)]: [None] stands for [ValueError].  Surrounding whitespace is
    ignored and one sign is allowed.  (CPython's limit on the number of
    digits of a literal, 4300 by default, is left out.) *)
Definition int (s : string) : option Z :=
  match rstrip_int (lstrip_int s) with
  | String "-" r => Z.opp <$> int_digits 0 false r
  | String "+" r => int_digits 0 false r
  | r => int_digits 0 false r
  end.

(** [str(n)] for an integer. *)
Definition str (n : Z) : string := pretty n.

(** A truthiness test: [if x] on an optional integer ([None] and [0]
    are both false). *)
Definition truthy (x : option Z) : bool :=
  match x with
  | Some v => negb (v =? 0)
  | None => false
  end.

(** [x or d] on an optional integer. *)
Definition or_default (x : option Z) (d : Z) : Z :=
  match x with
  | Some v => if v =? 0 then d else v
  | None => d
  end.

End Py.

(** ** pathlib (POSIX flavour)

    A path is the list of its parts, as [PurePath.parts] has it: an
    absolute path starts with the part ["/"]; the empty list is ["."].
    (A root of exactly two slashes, which POSIX lets pathlib keep apart
    as ["//"], is read as ["/"].) *)

Abbreviation Path := (list string).

Module PathLib.

Definition is_abs (p : Path) : bool :=
  match p with
  | r :: _ => bool_decide (r = "/")
  | [] => false
  end.

(** The parts of a path given as text: the pieces between slashes, the
    empty ones and ["."] dropped, after the root if there is one. *)
Definition segments (s : string) : list string :=
  filter (λ c, c ≠ "" ∧ c ≠ ".") (Py.split_on "/" s).
Definition of_string (s : string) : Path :=
  match s with
  | String "/" _ => "/" :: segments s
  | _ => segments s
  end.

(** [p / s] *)
Definition joinpath (p : Path) (s : string) : Path :=
  match s with
  | String "/" _ => of_string s
  | _ => p ++ segments s
  end.

(** [p.name]: the last part, unless it is the root. *)
Definition name (p : Path) : string :=
  match last p with
  | Some c => if bool_decide (c = "/") && bool_decide (length p = 1%nat)
              then "" else c
  | None => ""
  end.

(** [p.parents[i]]; [None] stands for [IndexError]. *)
Definition parents (p : Path) (i : nat) : option Path :=
  let k := if is_abs p then (length p - 1)%nat else length p in
  if bool_decide (i < k)%nat then Some (take (length p - 1 - i) p)
  else None.

(** [p.parts[-i]] for [i > 0]; [None] stands for [IndexError]. *)
Definition part_from_end (p : Path) (i : nat) : option string :=
  if bool_decide (i ≤ length p)%nat then p !! (length p - i)%nat
  else None.

(** [str(p)] *)
Fixpoint render_rel (p : Path) : string :=
  match p with
  | [] => ""
  | [c] => c
  | c :: p' => c +:+ "/" +:+ render_rel p'
  end.
Definition render (p : Path) : string :=
  match p with
  | [] => "."
  | r :: p' => if bool_decide (r = "/") then "/" +:+ render_rel p'
               else render_rel p
  end.

End PathLib.

(** ** Command line ([parse_args]) *)

Inductive extract_mode_t := ModeThread | ModeProcess.

(** The namespace [args].  A manifest of [masterfiles] is given by the
    lines that iterating over its file handle yields. *)
Record Args := {
  masterfiles : list (list string);
  output : string;
  workers : Z;
  pool_size : option Z;
  shuffle : bool;
  year_from : option Z;
  year_to : option Z;
  skip_extract : bool;
  extract_only : bool;
  raw_subdir : string;
  extract_workers : Z;
  extract_mode : extract_mode_t;
  bytes_progress : bool;
  retries : Z
}.

Definition RAW_SUBDIR (args : Args) : string := raw_subdir args.
Definition OUTPUT_ROOT (args : Args) : Path := PathLib.of_string (output args).

(** ** Tasks and the manifest *)

(** [(size_bytes, url, year)] *)
Definition Task : Type := Z * string * Z.

Section Shuffle.
Context {A : Type}.

(** [x[i], x[j] = x[j], x[i]] *)
Definition swap (l : list A) (i j : nat) : list A :=
  match l !! i, l !! j with
  | Some a, Some b => <[i := b]> (<[j := a]> l)
  | _, _ => l
  end.

(** [random.shuffle]: for [i] from [len(x) - 1] down to [1], exchange
    [x[i]] and [x[j]] for a random [j] below [i + 1].  [rnd k] is the
    [k]-th value the random generator draws. *)
Fixpoint shuffle_loop (rnd : nat → nat) (k : nat) (i : nat) (l : list A)
  : list A :=
  match i with
  | O => l
  | S i' => shuffle_loop rnd (S k) i' (swap l i (rnd k mod (i + 1))%nat)
  end.
Definition random_shuffle (rnd : nat → nat) (l : list A) : list A :=
  shuffle_loop rnd 0 (length l - 1) l.
End Shuffle.

(** The body of the loop over the lines of a manifest; each [continue]
    leaves the accumulators as they are. *)
Definition parse_line (args : Args) (acc : list Task * Z) (line : string)
  : list Task * Z :=
  let '(tasks, total_bytes) := acc in
  match Py.split (Py.strip line) with
  | [size; _hash; url] =>
      if negb (Py.endswith url ".gkg.csv.zip") then acc else
      match Py.int size with
      | None => acc
      | Some size_int =>
          let ts := default "" (head (Py.split_on "." (PathLib.name (PathLib.of_string url)))) in
          match Py.int (Py.slice_to 4 ts) with
          | None => acc
          | Some year =>
              if Py.truthy (year_from args) && (year <? Py.or_default (year_from args) 0)
              then acc
              else if Py.truthy (year_to args) && (Py.or_default (year_to args) 0 <? year)
              then acc
              else (tasks ++ [(size_int, url, year)], total_bytes + size_int)
          end
      end
  | _ => acc
  end.

(** The two nested loops of [parse_masterfiles], over the manifests and
    over their lines. *)
Definition read_masterfiles (args : Args) : list Task * Z :=
  fold_left (λ acc mfile, fold_left (parse_line args) mfile acc)
            (masterfiles args) ([], 0).

Definition parse_masterfiles (args : Args) (rnd : nat → nat) : list Task * Z :=
  let '(tasks, total_bytes) := read_masterfiles args in
  (if shuffle args then random_shuffle rnd tasks else tasks, total_bytes).

(** ** The world the program acts on

    The file tree is a finite map from paths to nodes.  A name clash
    between a file and a directory is not modelled: writing a node
    replaces what stood at its path. *)

Inductive node := Dir | File (bytes : string).

Abbreviation FS := (gmap Path node).

(** What [zipfile] finds in a file: the name of the exception it raises,
    or the members (name and content) of the archive. *)
Definition zip_view : Type := string + list (string * string).

(** What one [session.get] attempt ends in, seen from the [try] block of
    [download_task]: a 404 status, a complete body streamed to the
    archive file, or an exception of class [exn] (a transport error, an
    error status raised by [raise_for_status], an I/O error); [written]
    holds the chunks already on disk when the exception struck after the
    archive file had been opened. *)
Inductive response :=
| Resp404
| RespOk (chunks : list string)
| RespErr (exn : string) (written : option (list string)).

(** The collaborators outside the program: the ZIP decoder, the remote
    server ([http_get n url] is the outcome of the [n]-th request of the
    run, counted from 0, when it asks for [url]) and the random
    generator. *)
Record Env := {
  zip_read : string → zip_view;
  http_get : nat → string → response;
  rnd : nat → nat
}.

Inductive log_entry :=
| LogNotFound (url : string)
| LogFailed (exn : string) (url : string)
| LogExtractError (exn : string) (zip_path : Path)
| LogStartExtraction (n : nat) (n_workers : Z) (mode : extract_mode_t)
| LogExtractionFinished
| LogStartDownload (n : nat) (n_workers : Z)
| LogDownloadFinished.

Inductive level := INFO | WARNING | ERROR.

(** [logger.warning("404 Not Found ...")], [logger.error("FAILED ...")],
    [logger.error("Extract error ...")], and the four [logger.info]
    messages of [main] with the values they print. *)
Definition level_of (e : log_entry) : level :=
  match e with
  | LogNotFound _ => WARNING
  | LogFailed _ _ | LogExtractError _ _ => ERROR
  | LogStartExtraction _ _ _ | LogExtractionFinished
  | LogStartDownload _ _ | LogDownloadFinished => INFO
  end.

(** The state of a run.  [failures] lists the texts written to
    [OUTPUT_ROOT/failures.log], one per [write] call; [requests], [sleeps]
    and [unzips] record the calls of [session.get], [time.sleep] and
    [ZipFile(...).extractall(...)], oldest first; [pbar_bytes] is [None]
    when there is no byte bar or when it tests false ([tqdm] is false when
    its total is not positive). *)
Record World := {
  fs : FS;
  failures : list string;
  requests : list string;
  sleeps : list Z;
  logged : list log_entry;
  unzips : list (Path * Path);
  pbar_files : Z;
  pbar_bytes : option Z
}.

Definition with_fs (f : FS → FS) (w : World) : World :=
  {| fs := f (fs w); failures := failures w; requests := requests w;
     sleeps := sleeps w; logged := logged w; unzips := unzips w;
     pbar_files := pbar_files w; pbar_bytes := pbar_bytes w |}.

(** [(OUTPUT_ROOT / "failures.log").open("a").write(text)] *)
Definition failures_write (text : string) (w : World) : World :=
  {| fs := fs w; failures := failures w ++ [text]; requests := requests w;
     sleeps := sleeps w; logged := logged w; unzips := unzips w;
     pbar_files := pbar_files w; pbar_bytes := pbar_bytes w |}.

Definition note_request (url : string) (w : World) : World :=
  {| fs := fs w; failures := failures w; requests := requests w ++ [url];
     sleeps := sleeps w; logged := logged w; unzips := unzips w;
     pbar_files := pbar_files w; pbar_bytes := pbar_bytes w |}.

(** [time.sleep(t)] *)
Definition time_sleep (t : Z) (w : World) : World :=
  {| fs := fs w; failures := failures w; requests := requests w;
     sleeps := sleeps w ++ [t]; logged := logged w; unzips := unzips w;
     pbar_files := pbar_files w; pbar_bytes := pbar_bytes w |}.

Definition log (e : log_entry) (w : World) : World :=
  {| fs := fs w; failures := failures w; requests := requests w;
     sleeps := sleeps w; logged := logged w ++ [e]; unzips := unzips w;
     pbar_files := pbar_files w; pbar_bytes := pbar_bytes w |}.

Definition note_unzip (zip_path dir : Path) (w : World) : World :=
  {| fs := fs w; failures := failures w; requests := requests w;
     sleeps := sleeps w; logged := logged w;
     unzips := unzips w ++ [(zip_path, dir)];
     pbar_files := pbar_files w; pbar_bytes := pbar_bytes w |}.

(** [pbar_files.update(n)] *)
Definition pbar_files_update (n : Z) (w : World) : World :=
  {| fs := fs w; failures := failures w; requests := requests w;
     sleeps := sleeps w; logged := logged w; unzips := unzips w;
     pbar_files := pbar_files w + n; pbar_bytes := pbar_bytes w |}.

(** [if pbar_bytes: pbar_bytes.update(n)] *)
Definition pbar_bytes_update (n : Z) (w : World) : World :=
  {| fs := fs w; failures := failures w; requests := requests w;
     sleeps := sleeps w; logged := logged w; unzips := unzips w;
     pbar_files := pbar_files w;
     pbar_bytes := (λ b, b + n) <$> pbar_bytes w |}.

Definition with_bars (files : Z) (bytes : option Z) (w : World) : World :=
  {| fs := fs w; failures := failures w; requests := requests w;
     sleeps := sleeps w; logged := logged w; unzips := unzips w;
     pbar_files := files; pbar_bytes := bytes |}.

(** [p.exists()] *)
Definition path_exists (t : FS) (p : Path) : bool :=
  bool_decide (p = [] ∨ p = ["/"] ∨ is_Some (t !! p)).

Definition prefixes (p : Path) : list Path :=
  (λ n, take n p) <$> seq 1 (length p).

(** [p.mkdir(parents=True, exist_ok=True)] *)
Definition mkdir_p (p : Path) (t : FS) : FS :=
  fold_left (λ t q, match t !! q with
                    | None => <[q := Dir]> t
                    | Some _ => t
                    end) (prefixes p) t.

(** Writing a whole file, below directories that exist or are made. *)
Definition write_file (p : Path) (bytes : string) (t : FS) : FS :=
  <[p := File bytes]> (mkdir_p (removelast p) t).

Definition concat_chunks (chunks : list string) : string :=
  foldr String.append "" chunks.

(** The streaming loop of [download_task]: the archive file is opened
    for writing, every chunk that is not empty is written and counted on
    the byte bar. *)
Definition stream_to (zip_path : Path) (chunks : list string) (w : World)
  : World :=
  let kept := filter (λ c, c ≠ "") chunks in
  fold_left (λ w c, pbar_bytes_update (Z.of_nat (String.length c)) w) kept
            (with_fs (<[zip_path := File (concat_chunks kept)]>) w).

(** The parts of a member name that [ZipFile.extractall] keeps. *)
Definition member_parts (name : string) : list string :=
  filter (λ c, c ≠ "" ∧ c ≠ "." ∧ c ≠ "..") (Py.split_on "/" name).

Definition is_file (t : FS) (p : Path) : bool :=
  match t !! p with
  | Some (File _) => true
  | _ => false
  end.

(** The two roots are directories whatever the disk holds. *)
Definition is_directory (t : FS) (p : Path) : bool :=
  bool_decide (p = [] ∨ p = ["/"])
  || match t !! p with
     | Some Dir => true
     | _ => false
     end.

(** What stands in the way of the member [m], as [ZipFile._extract_member]
    (CPython 3.11) meets it: a file among the directories above the
    destination ([os.makedirs], [os.mkdir] or [open] raise), a file where
    a directory is to be made ([os.mkdir] raises), a directory where a
    file is to be written ([open] raises).  The last is also the lot of
    a file member whose name has no part left: its destination is the
    extraction directory itself, which is a directory on the disk in both
    places where the program extracts (the year directory it has just
    made, an ancestor of the archive it has found). *)
Definition member_error (dir : Path) (t : FS) (m : string * string)
  : option string :=
  let parts := member_parts m.1 in
  let dest := dir ++ parts in
  if existsb (is_file t) (prefixes (removelast dest))
  then Some "NotADirectoryError"
  else if Py.endswith m.1 "/"
  then (if is_file t dest then Some "FileExistsError" else None)
  else (if is_directory t dest || bool_decide (parts = [])
        then Some "IsADirectoryError" else None).

(** What extracting the member [m] writes, nothing being in its way: a
    directory member makes its directory, a file member is written over
    whatever file is there. *)
Definition extract_member (dir : Path) (t : FS) (m : string * string) : FS :=
  let dest := dir ++ member_parts m.1 in
  if Py.endswith m.1 "/" then mkdir_p dest t
  else write_file dest m.2 t.

(** The members in their order in the archive, up to the first one that
    raises; what was written before stays. *)
Fixpoint extract_members (dir : Path) (members : list (string * string))
    (t : FS) : FS * option string :=
  match members with
  | [] => (t, None)
  | m :: rest =>
      match member_error dir t m with
      | Some exn => (t, Some exn)
      | None => extract_members dir rest (extract_member dir t m)
      end
  end.

(** [with zipfile.ZipFile(zip_path) as zf: zf.extractall(dir)]: the world
    afterwards, and the class of the exception raised, if any. *)
Definition extractall (env : Env) (zip_path dir : Path) (w : World)
  : World * option string :=
  let w := note_unzip zip_path dir w in
  match fs w !! zip_path with
  | None => (w, Some "FileNotFoundError")
  | Some Dir => (w, Some "IsADirectoryError")
  | Some (File bytes) =>
      match zip_read env bytes with
      | inl exn => (w, Some exn)
      | inr members =>
          let r := extract_members dir members (fs w) in
          (with_fs (λ _, r.1) w, r.2)
      end
  end.

(** ** [download_task] *)

(** The point at which [download_task] stops: the [return] of the resume
    check, the [return] on a 404 status, the [return] after the last
    failed attempt, or the end of the function (with extraction skipped,
    done, or ended by an exception of the given class). *)
Inductive exit_point :=
| SkippedExtracted
| NotFound
| RetriesExhausted
| DownloadedOnly
| Extracted
| ExtractFailed (exn : string).

Definition nl : string := String "010"%char "".

(** What a failed attempt leaves behind: the chunks written before the
    exception, if the archive file had been opened. *)
Definition after_attempt (zip_path : Path) (written : option (list string))
    (w : World) : World :=
  match written with
  | Some chunks => stream_to zip_path chunks w
  | None => w
  end.

(** The [for attempt in range(1, args.retries + 1)] loop, with [n]
    iterations left.  The result is [Some e] when the function returned
    inside the loop, [None] when the loop was left by [break] or ran out. *)
Fixpoint retry_loop (env : Env) (args : Args) (url : string) (zip_path : Path)
    (n : nat) (attempt : Z) (w : World) : World * option exit_point :=
  match n with
  | O => (w, None)
  | S n' =>
      let resp := http_get env (length (requests w)) url in
      let w := note_request url w in
      match resp with
      | Resp404 => (log (LogNotFound url) w, Some NotFound)
      | RespOk chunks => (stream_to zip_path chunks w, None)
      | RespErr exn written =>
          let w := after_attempt zip_path written w in
          if attempt =? retries args
          then (failures_write (url +:+ nl) (log (LogFailed exn url) w),
                Some RetriesExhausted)
          else retry_loop env args url zip_path n' (attempt + 1)
                          (time_sleep (2 ^ attempt) w)
      end
  end.

(** The paths [download_task] derives from a task. *)
Definition fname_of (url : string) : string :=
  PathLib.name (PathLib.of_string url).
Definition year_dir_of (args : Args) (year : Z) : Path :=
  PathLib.joinpath (OUTPUT_ROOT args) (Py.str year).
Definition raw_dir_of (args : Args) (year : Z) : Path :=
  PathLib.joinpath (year_dir_of args year) (RAW_SUBDIR args).
Definition zip_path_of (args : Args) (task : Task) : Path :=
  PathLib.joinpath (raw_dir_of args task.2) (fname_of task.1.2).
Definition csv_path_of (args : Args) (task : Task) : Path :=
  PathLib.joinpath (year_dir_of args task.2)
                   (Py.slice_drop_last 4 (fname_of task.1.2)).

Definition download_task (env : Env) (args : Args) (task : Task) (w : World)
  : World * exit_point :=
  let '(size, url, year) := task in
  let year_dir := year_dir_of args year in
  let w := with_fs (mkdir_p (raw_dir_of args year)) w in
  let zip_path := zip_path_of args task in
  let csv_path := csv_path_of args task in
  if path_exists (fs w) csv_path then
    (pbar_bytes_update size (pbar_files_update 1 w), SkippedExtracted)
  else
    let '(w, returned) :=
      if negb (path_exists (fs w) zip_path)
      then retry_loop env args url zip_path (Z.to_nat (retries args)) 1 w
      else (pbar_bytes_update size w, None) in
    match returned with
    | Some e => (w, e)
    | None =>
        if negb (skip_extract args) then
          let '(w, err) := extractall env zip_path year_dir w in
          match err with
          | Some exn =>
              (pbar_files_update 1
                 (failures_write (PathLib.render zip_path +:+ nl)
                    (log (LogExtractError exn zip_path) w)),
               ExtractFailed exn)
          | None => (pbar_files_update 1 w, Extracted)
          end
        else (pbar_files_update 1 w, DownloadedOnly)
    end.

(** ** [extract_one] *)

Definition extract_one (env : Env) (zip_path year_dir : Path) (w : World)
  : World :=
  let '(w, err) := extractall env zip_path year_dir w in
  match err with
  | Some exn =>
      failures_write (PathLib.render zip_path +:+ nl)
        (log (LogExtractError exn zip_path) w)
  | None => w
  end.

(** ** [main] *)

(** How the run ends: normally, by [sys.exit] with a message, or by an
    exception nothing catches. *)
Inductive run_exit :=
| ExitOk
| SysExit (msg : string)
| Uncaught (exn : string).

(** Whether [p] matches [root.rglob(raw + "/*.zip")], for a [raw] that
    [rglob] reads as itself: [p] lies below [root], its last part ends
    in [.zip] and the parts before it are those of [raw].  This is the
    scan for a [raw] that is a literal name ([literal_name] below).
    [rglob] reads [*], [?] and a bracket in [raw] as pattern syntax and
    raises [NotImplementedError] on an empty or absolute [raw]; neither
    is rendered here. *)
Definition glob_match (root : Path) (raw : string) (p : Path) : bool :=
  let rs := PathLib.segments raw in
  let rest := drop (length root) p in
  bool_decide (take (length root) p = root)
  && (PathLib.is_abs root || negb (PathLib.is_abs p))
  && bool_decide (length rs + 1 ≤ length rest)%nat
  && bool_decide (take (length rs) (drop (length rest - length rs - 1) rest) = rs)
  && Py.endswith (default "" (last rest)) ".zip".

Definition rglob (root : Path) (raw : string) (t : FS) : list Path :=
  filter (λ p, glob_match root raw p = true) (map_to_list t).*1.

(** The comprehension that keeps the archives of the wanted years; [inl]
    carries the exception that [p.parts[-3]] or [int] raises. *)
Fixpoint year_filter (args : Args) (zip_paths : list Path)
  : string + list Path :=
  match zip_paths with
  | [] => inr []
  | p :: rest =>
      match PathLib.part_from_end p 3 with
      | None => inl "IndexError"
      | Some d =>
          match Py.int d with
          | None => inl "ValueError"
          | Some y =>
              match year_filter args rest with
              | inl e => inl e
              | inr kept =>
                  inr (if (Py.or_default (year_from args) 0 <=? y)
                          && (y <=? Py.or_default (year_to args) 9999)
                       then p :: kept else kept)
              end
          end
      end
  end.

(** [[ex.submit(extract_one, zp, zp.parents[2]) for zp in zip_paths]],
    each submitted call run at once. *)
Fixpoint submit_extractions (env : Env) (zip_paths : list Path) (w : World)
  : World * run_exit :=
  match zip_paths with
  | [] => (w, ExitOk)
  | zp :: rest =>
      match PathLib.parents zp 2 with
      | None => (w, Uncaught "IndexError")
      | Some dir => submit_extractions env rest (extract_one env zp dir w)
      end
  end.

(** The loop that submits [download_task] for every task, each call run
    at once; the exit points are kept for the statements below. *)
Fixpoint submit_downloads (env : Env) (args : Args) (tasks : list Task)
    (w : World) : World * list exit_point :=
  match tasks with
  | [] => (w, [])
  | t :: rest =>
      let '(w1, e) := download_task env args t w in
      let '(w2, es) := submit_downloads env args rest w1 in
      (w2, e :: es)
  end.

(** The archives the extraction phase works on: those that [rglob]
    finds, filtered by year when a bound is set. *)
Definition discover (args : Args) (t : FS) : string + list Path :=
  let zip_paths := rglob (OUTPUT_ROOT args) (RAW_SUBDIR args) t in
  if Py.truthy (year_from args) || Py.truthy (year_to args)
  then year_filter args zip_paths else inr zip_paths.

(** The extraction phase of [main] (its own progress bar, which nothing
    reads, is left out). *)
Definition main_extract_only (env : Env) (args : Args) (w : World)
  : World * run_exit :=
  match discover args (fs w) with
  | inl exn => (w, Uncaught exn)
  | inr zip_paths =>
      let w := log (LogStartExtraction (length zip_paths)
                      (extract_workers args) (extract_mode args)) w in
      if extract_workers args <=? 0 then (w, Uncaught "ValueError") else
      match submit_extractions env zip_paths w with
      | (w, ExitOk) => (log LogExtractionFinished w, ExitOk)
      | r => r
      end
  end.

(** The start of the download phase: the message and the two progress
    bars. *)
Definition bars_start (args : Args) (n_tasks : nat) (total_bytes : Z)
    (w : World) : World :=
  with_bars 0 (if bytes_progress args && (0 <? total_bytes)
               then Some 0 else None)
            (log (LogStartDownload n_tasks (workers args)) w).

(** The download phase of [main]. *)
Definition main_download (env : Env) (args : Args) (w : World)
  : World * run_exit :=
  let '(tasks, total_bytes) := parse_masterfiles args (rnd env) in
  let w := bars_start args (length tasks) total_bytes w in
  if workers args <=? 0 then (w, Uncaught "ValueError") else
  let w := (submit_downloads env args tasks w).1 in
  (log LogDownloadFinished w, ExitOk).

Definition main (env : Env) (args : Args) (w : World) : World * run_exit :=
  if extract_only args then main_extract_only env args w
  else main_download env args w.

(** The script as a whole: the check of the two exclusive flags, the
    creation of the output root, then [main]. *)
Definition script (env : Env) (args : Args) (w : World) : World * run_exit :=
  if skip_extract args && extract_only args
  then (w, SysExit "--skip-extract and --extract-only are mutually exclusive.")
  else main env args (with_fs (mkdir_p (OUTPUT_ROOT args)) w).

(** ** Notions the statements use *)

(** What the statements observe of a world besides its files and its
    byte bar. *)
Definition trace (w : World)
  : list string * list string * list Z * list log_entry * list (Path * Path) * Z :=
  (failures w, requests w, sleeps w, logged w, unzips w, pbar_files w).

(** The sum of the sizes of a list of tasks. *)
Definition sizes (ts : list Task) : Z := foldr (λ t s, t.1.1 + s) 0 ts.

(** The two tests of the resume check, as [download_task] evaluates
    them: after [raw_dir.mkdir], before anything else. *)
Definition csv_exists (args : Args) (task : Task) (w : World) : bool :=
  path_exists (mkdir_p (raw_dir_of args task.2) (fs w)) (csv_path_of args task).
Definition zip_exists (args : Args) (task : Task) (w : World) : bool :=
  path_exists (mkdir_p (raw_dir_of args task.2) (fs w)) (zip_path_of args task).

(** The end of [download_task], from the test of [args.skip_extract]
    on. *)
Definition finish_task (env : Env) (args : Args) (task : Task) (w : World)
  : World * exit_point :=
  if negb (skip_extract args) then
    let '(w, err) :=
      extractall env (zip_path_of args task) (year_dir_of args task.2) w in
    match err with
    | Some exn =>
        (pbar_files_update 1
           (failures_write (PathLib.render (zip_path_of args task) +:+ nl)
              (log (LogExtractError exn (zip_path_of args task)) w)),
         ExtractFailed exn)
    | None => (pbar_files_update 1 w, Extracted)
    end
  else (pbar_files_update 1 w, DownloadedOnly).

(** An attempt that fails with something else than a 404 status. *)
Definition is_error (r : response) : bool :=
  match r with
  | RespErr _ _ => true
  | _ => false
  end.

(** The exit points of the download stage. *)
Definition download_failed (e : exit_point) : bool :=
  match e with
  | NotFound | RetriesExhausted => true
  | _ => false
  end.

(** By how much a task that ends at [e] moves the file bar. *)
Definition bar_step (e : exit_point) : Z :=
  match e with
  | SkippedExtracted | DownloadedOnly | Extracted | ExtractFailed _ => 1
  | NotFound | RetriesExhausted => 0
  end.

(** The year that the extraction phase reads off an archive path: the
    third part from the end. *)
Definition dir_year (p : Path) : option Z :=
  PathLib.part_from_end p 3 ≫= Py.int.

(** The test of the extraction phase on that year. *)
Definition dir_year_ok (args : Args) (p : Path) : bool :=
  match dir_year p with
  | Some y => (Py.or_default (year_from args) 0 <=? y)
              && (y <=? Py.or_default (year_to args) 9999)
  | None => false
  end.

(** The delays [2 ** attempt] for [attempt] from [a] on, [n] of them. *)
Fixpoint backoff (a : Z) (n : nat) : list Z :=
  match n with
  | O => []
  | S n' => 2 ^ a :: backoff (a + 1) n'
  end.

(** The year a url carries, as [parse_masterfiles] reads it: the file
    name of the url is cut at its first dot, and of what stands before
    that dot the first four characters (all of it, when it is shorter)
    are given to [int].  So [2.gkg.csv.zip] carries the year 2. *)
Definition year_of_url (url : string) : option Z :=
  Py.int (Py.slice_to 4
    (default "" (head (Py.split_on "." (PathLib.name (PathLib.of_string url)))))).

(** A year passes an inclusive range whose bounds may be absent; a bound
    of [0] counts as absent, as it tests false. *)
Definition year_in_range (yf yt : option Z) (y : Z) : bool :=
  match yf with
  | Some a => (a =? 0) || (a <=? y)
  | None => true
  end
  && match yt with
     | Some b => (b =? 0) || (y <=? b)
     | None => true
     end.

(** The task a manifest line stands for, if it is accepted: three
    fields, the archive suffix, a size and a year that [int] reads, and a
    year within the range. *)
Definition line_task (args : Args) (line : string) : option Task :=
  match Py.split (Py.strip line) with
  | [size; _; url] =>
      if Py.endswith url ".gkg.csv.zip" then
        match Py.int size, year_of_url url with
        | Some n, Some y =>
            if year_in_range (year_from args) (year_to args) y
            then Some (n, url, y) else None
        | _, _ => None
        end
      else None
  | _ => None
  end.

(** The acceptance rule in the words of the specification: exactly three
    whitespace-separated fields, the archive suffix, and a size that
    parses as a non-negative integer. *)
Definition spec_line_accepted (line : string) : bool :=
  match Py.split line with
  | [size; _; url] =>
      Py.endswith url ".gkg.csv.zip"
      && match Py.int size with
         | Some n => 0 <=? n
         | None => false
         end
  | _ => false
  end.

Definition with_years (yf yt : option Z) (a : Args) : Args :=
  {| masterfiles := masterfiles a; output := output a; workers := workers a;
     pool_size := pool_size a; shuffle := shuffle a;
     year_from := yf; year_to := yt;
     skip_extract := skip_extract a; extract_only := extract_only a;
     raw_subdir := raw_subdir a; extract_workers := extract_workers a;
     extract_mode := extract_mode a; bytes_progress := bytes_progress a;
     retries := retries a |}.

Definition with_shuffle (b : bool) (a : Args) : Args :=
  {| masterfiles := masterfiles a; output := output a; workers := workers a;
     pool_size := pool_size a; shuffle := b;
     year_from := year_from a; year_to := year_to a;
     skip_extract := skip_extract a; extract_only := extract_only a;
     raw_subdir := raw_subdir a; extract_workers := extract_workers a;
     extract_mode := extract_mode a; bytes_progress := bytes_progress a;
     retries := retries a |}.

Definition with_masterfiles (ms : list (list string)) (a : Args) : Args :=
  {| masterfiles := ms; output := output a; workers := workers a;
     pool_size := pool_size a; shuffle := shuffle a;
     year_from := year_from a; year_to := year_to a;
     skip_extract := skip_extract a; extract_only := extract_only a;
     raw_subdir := raw_subdir a; extract_workers := extract_workers a;
     extract_mode := extract_mode a; bytes_progress := bytes_progress a;
     retries := retries a |}.

(** Every node of [t] is still there in [t']. *)
Definition keeps (t t' : FS) : Prop :=
  ∀ p, is_Some (t !! p) → is_Some (t' !! p).

(** The record a task leaves in the failure log, by the point at which
    it stops. *)
Definition failure_record (args : Args) (task : Task) (e : exit_point)
  : list string :=
  match e with
  | RetriesExhausted => [task.1.2 +:+ nl]
  | ExtractFailed _ => [PathLib.render (zip_path_of args task) +:+ nl]
  | _ => []
  end.

(** ** Sample data for the concrete scenarios *)

Module Sample.

(** The defaults of [parse_args] on a host with one CPU, for the given
    manifests. *)
Definition args (manifests : list (list string)) : Args :=
  {| masterfiles := manifests; output := "data"; workers := 4;
     pool_size := None; shuffle := false;
     year_from := None; year_to := None;
     skip_extract := false; extract_only := false;
     raw_subdir := "rawdata"; extract_workers := 2;
     extract_mode := ModeProcess; bytes_progress := false; retries := 3 |}.

Definition args_skip_extract (manifests : list (list string)) : Args :=
  {| masterfiles := manifests; output := "data"; workers := 4;
     pool_size := None; shuffle := false;
     year_from := None; year_to := None;
     skip_extract := true; extract_only := false;
     raw_subdir := "rawdata"; extract_workers := 2;
     extract_mode := ModeProcess; bytes_progress := false; retries := 3 |}.

Definition args_extract_only : Args :=
  {| masterfiles := []; output := "data"; workers := 4;
     pool_size := None; shuffle := false;
     year_from := None; year_to := None;
     skip_extract := false; extract_only := true;
     raw_subdir := "rawdata"; extract_workers := 2;
     extract_mode := ModeProcess; bytes_progress := false; retries := 3 |}.

Definition url1 : string := "http://host/path/20150218230000.gkg.csv.zip".
Definition url2 : string := "http://host/path/20160101000000.gkg.csv.zip".
Definition line1 : string := "1234 abcd1234ef " +:+ url1.
Definition line2 : string := "5678 0123456789 " +:+ url2.
Definition task1 : Task := (1234, url1, 2015).

(** A line whose size is negative, and one whose file name carries no
    year. *)
Definition line_negative_size : string := "-5 0123456789 " +:+ url2.
Definition url_no_year : string := "http://host/path/latest.gkg.csv.zip".
Definition line_no_year : string := "7 0123456789 " +:+ url_no_year.

(** A stand-in for the ZIP format: the bytes [PK:] followed by a name are
    an archive with one member of that name. *)
Definition unzip (bytes : string) : zip_view :=
  match bytes with
  | String "P" (String "K" (String ":" name)) => inr [(name, "rows")]
  | _ => inl "BadZipFile"
  end.

(** A server that has both archives, one that has none, and one that
    cannot be reached. *)
Definition serve (n : nat) (url : string) : response :=
  if decide (url = url1) then RespOk ["PK:20150218230000.gkg.csv"]
  else if decide (url = url2) then RespOk ["PK:20160101000000.gkg.csv"]
  else Resp404.

Definition env : Env :=
  {| zip_read := unzip; http_get := serve; rnd := λ _, 0%nat |}.
Definition env_404 : Env :=
  {| zip_read := unzip; http_get := λ _ _, Resp404; rnd := λ _, 0%nat |}.
Definition env_down : Env :=
  {| zip_read := unzip;
     http_get := λ _ _, RespErr "ConnectionError" None;
     rnd := λ _, 0%nat |}.

(** A fresh process on the disk [t]. *)
Definition start (t : FS) : World :=
  {| fs := t; failures := []; requests := []; sleeps := []; logged := [];
     unzips := []; pbar_files := 0; pbar_bytes := None |}.

(** A disk that holds the first archive, not yet extracted. *)
Definition disk_with_archive : FS :=
  {[ ["data"; "2015"; "rawdata"; "20150218230000.gkg.csv.zip"]
     := File "PK:20150218230000.gkg.csv" ]}.

Definition zip1 : Path :=
  ["data"; "2015"; "rawdata"; "20150218230000.gkg.csv.zip"].

(** A disk that holds the first archive and the file extracted from it
    by an earlier run. *)
Definition disk_extracted : FS :=
  <[ ["data"; "2015"; "20150218230000.gkg.csv"] := File "rows" ]>
    disk_with_archive.

End Sample.

(** The sample command line with [--retries 0], and with the byte bar
    switched on. *)
Definition args_no_retries : Args :=
  {| masterfiles := []; output := "data"; workers := 4;
     pool_size := None; shuffle := false;
     year_from := None; year_to := None;
     skip_extract := false; extract_only := false;
     raw_subdir := "rawdata"; extract_workers := 2;
     extract_mode := ModeProcess; bytes_progress := false; retries := 0 |}.

(** A server whose every answer breaks off after the first chunk. *)
Definition env_cut : Env :=
  {| zip_read := Sample.unzip;
     http_get := λ _ _, RespErr "ChunkedEncodingError" (Some ["PK:2015"]);
     rnd := λ _, 0%nat |}.

(** The start of a process that shows a byte bar. *)
Definition start_with_byte_bar (t : FS) : World :=
  {| fs := t; failures := []; requests := []; sleeps := []; logged := [];
     unzips := []; pbar_files := 0; pbar_bytes := Some 0 |}.

(** The download test on the year that the extraction phase reads off
    an archive path. *)
Definition dir_year_in_range (args : Args) (p : Path) : bool :=
  match dir_year p with
  | Some y => year_in_range (year_from args) (year_to args) y
  | None => false
  end.

(** [--extract-only --year-from 2015], and a disk with an archive below
    a directory that is not named after a year. *)
Definition args_extract_from_2015 : Args :=
  with_years (Some 2015) None Sample.args_extract_only.
Definition zip_latest : Path :=
  ["data"; "latest"; "rawdata"; "20150218230000.gkg.csv.zip"].
Definition disk_latest : FS :=
  <[ zip_latest := File "PK:20150218230000.gkg.csv" ]> Sample.disk_with_archive.

(** Whether the character [c] occurs in [s]. *)
Fixpoint contains (c : ascii) (s : string) : bool :=
  match s with
  | "" => false
  | String d s' => bool_decide (d = c) || contains c s'
  end.

(** A plain name: one path segment, neither empty nor the dot. *)
Definition plain_name (s : string) : bool :=
  negb (contains "/" s) && bool_decide (s ≠ "") && bool_decide (s ≠ ".").

(** Whether every character of [s] passes the test [f]. *)
Fixpoint all_chars (f : ascii → bool) (s : string) : bool :=
  match s with
  | "" => true
  | String c s' => f c && all_chars f s'
  end.

Definition is_digit (c : ascii) : bool := bool_decide (is_Some (Py.digit c)).

(** A literal name: a plain name that the pattern of [rglob] reads as
    itself, so without the pattern characters [*], [?] and the opening
    bracket, and not the parent directory. *)
Definition literal_name (s : string) : bool :=
  plain_name s
  && negb (contains "*" s) && negb (contains "?" s) && negb (contains "[" s)
  && bool_decide (s ≠ "..").

(** The first answer that is not an exception among [n] attempts, the
    first of which is request number [from] of the run; [None] when all
    [n] attempts raise. *)
Fixpoint first_answer (env : Env) (url : string) (from n : nat)
  : option response :=
  match n with
  | O => None
  | S n' =>
      match http_get env from url with
      | RespErr _ _ => first_answer env url (S from) n'
      | r => Some r
      end
  end.

(** What extracting the archive at [zip_path] into [dir] raises on the
    disk [t], if anything: the archive is missing, is a directory, is not
    one the decoder reads, or one of its members finds its way barred. *)
Definition extract_error (env : Env) (t : FS) (zip_path dir : Path)
  : option string :=
  match t !! zip_path with
  | None => Some "FileNotFoundError"
  | Some Dir => Some "IsADirectoryError"
  | Some (File bytes) =>
      match zip_read env bytes with
      | inl exn => Some exn
      | inr members => (extract_members dir members t).2
      end
  end.

(** How a task ends once its download stage is over and has left the
    disk [t]. *)
Definition exit_after_download (env : Env) (args : Args) (task : Task)
    (t : FS) : exit_point :=
  if skip_extract args then DownloadedOnly
  else match extract_error env t (zip_path_of args task)
                           (year_dir_of args task.2) with
       | Some exn => ExtractFailed exn
       | None => Extracted
       end.

(** How a task ends, read off the disk it finds and the answers the
    server has for it: the two resume tests first, then the first answer
    that is not an exception among the attempts allowed, then the
    extraction of what is at the archive path. *)
Definition expected_exit (env : Env) (args : Args) (task : Task) (w : World)
  : exit_point :=
  let t := mkdir_p (raw_dir_of args task.2) (fs w) in
  if csv_exists args task w then SkippedExtracted
  else if zip_exists args task w then exit_after_download env args task t
  else
    match first_answer env task.1.2 (length (requests w))
                       (Z.to_nat (retries args)) with
    | Some (RespOk chunks) =>
        exit_after_download env args task
          (<[zip_path_of args task := File (concat_chunks chunks)]> t)
    | Some _ => NotFound
    | None =>
        if bool_decide (0 < retries args) then RetriesExhausted
        else exit_after_download env args task t
    end.

(** The number of tasks of a run whose download stage fails, each task
    judged on the world its predecessors left. *)
Fixpoint failed_downloads (env : Env) (args : Args) (tasks : list Task)
    (w : World) : nat :=
  match tasks with
  | [] => 0
  | t :: rest =>
      ((if download_failed (expected_exit env args t w) then 1 else 0)
       + failed_downloads env args rest (download_task env args t w).1)%nat
  end.

(** A disk with the first archive and, where the extraction phase writes
    its member, a file left by someone else. *)
Definition disk_stale : FS :=
  <[ ["data"; "20150218230000.gkg.csv"] := File "old" ]>
    Sample.disk_with_archive.

(** A disk with the first archive and, where the extraction phase is to
    write its member, a directory. *)
Definition disk_barred : FS :=
  <[ ["data"; "20150218230000.gkg.csv"] := Dir ]> Sample.disk_with_archive.

(** A url whose file name has a single character before its first dot. *)
Definition url_short_stem : string := "http://h/2.gkg.csv.zip".

(** Projections of a world after the updates above. *)
Ltac wsimpl :=
  cbn [fs failures requests sleeps logged unzips pbar_files pbar_bytes
       with_fs failures_write note_request time_sleep log note_unzip
       pbar_files_update pbar_bytes_update with_bars bars_start
       fst snd negb] in *.

(** * Properties *)

(** ** The manifest *)

Lemma year_test_in_range (yf yt : option Z) (y : Z) :
  ((Py.truthy yf && (y <? Py.or_default yf 0))
   || (Py.truthy yt && (Py.or_default yt 0 <? y)))
  = negb (year_in_range yf yt y).
Proof.
  unfold year_in_range, Py.truthy, Py.or_default.
  destruct yf as [a|], yt as [b|]; simpl;
    repeat match goal with
           | |- context [?x =? ?y] => destruct (Z.eqb_spec x y)
           | |- context [?x <? ?y] => destruct (Z.ltb_spec x y)
           | |- context [?x <=? ?y] => destruct (Z.leb_spec x y)
           end; simpl; try reflexivity; lia.
Qed.

(** One turn of the manifest loop appends the task of the line, or
    leaves the accumulators alone. *)
Lemma parse_line_task (args : Args) (acc : list Task * Z) (line : string) :
  parse_line args acc line =
  match line_task args line with
  | Some t => (acc.1 ++ [t], acc.2 + t.1.1)
  | None => acc
  end.
Proof.
  destruct acc as [tasks total]. unfold parse_line, line_task, year_of_url.
  destruct (Py.split (Py.strip line)) as [|size [|h [|url [|? ?]]]]; try reflexivity.
  destruct (Py.endswith url ".gkg.csv.zip"); simpl; [|reflexivity].
  destruct (Py.int size) as [n|]; [|reflexivity].
  destruct (Py.int _) as [y|]; [|reflexivity].
  pose proof (year_test_in_range (year_from args) (year_to args) y) as Hr.
  destruct (year_in_range (year_from args) (year_to args) y); simpl in Hr.
  - apply orb_false_iff in Hr as [-> ->]. reflexivity.
  - apply orb_true_iff in Hr as [Hr | Hr]; rewrite Hr; [reflexivity|].
    destruct (Py.truthy (year_from args) && _); reflexivity.
Qed.

Lemma sizes_app (ts us : list Task) : sizes (ts ++ us) = sizes ts + sizes us.
Proof. induction ts as [|t ts IH]; simpl; [reflexivity|]. rewrite IH. lia. Qed.

Lemma fold_parse_line (args : Args) (lines : list string) (acc : list Task * Z) :
  fold_left (parse_line args) lines acc =
  (acc.1 ++ omap (line_task args) lines,
   acc.2 + sizes (omap (line_task args) lines)).
Proof.
  revert acc. induction lines as [|line lines IH]; intros [tasks total].
  - simpl. rewrite app_nil_r, Z.add_0_r. reflexivity.
  - cbn [fold_left]. rewrite IH, parse_line_task. cbn [omap list_omap].
    destruct (line_task args line) as [t|]; simpl; [|reflexivity].
    rewrite <- app_assoc. simpl. f_equal. lia.
Qed.

Lemma read_masterfiles_tasks (args : Args) :
  read_masterfiles args =
  (omap (line_task args) (concat (masterfiles args)),
   sizes (omap (line_task args) (concat (masterfiles args)))).
Proof.
  unfold read_masterfiles.
  assert (∀ files acc,
    fold_left (λ acc mfile, fold_left (parse_line args) mfile acc) files acc =
    (acc.1 ++ omap (line_task args) (concat files),
     acc.2 + sizes (omap (line_task args) (concat files)))) as H.
  { induction files as [|f files IH]; intros [tasks total].
    - simpl. rewrite app_nil_r, Z.add_0_r. reflexivity.
    - cbn [fold_left concat]. rewrite IH, fold_parse_line. cbn [fst snd].
      rewrite omap_app, sizes_app, <- app_assoc. f_equal. lia. }
  rewrite H. reflexivity.
Qed.

(** Exchanging two elements permutes the list. *)
Lemma swap_perm {A} (l : list A) (i j : nat) : swap l i j ≡ₚ l.
Proof.
  unfold swap.
  destruct (l !! i) as [a|] eqn:Hi; [|reflexivity].
  destruct (l !! j) as [b|] eqn:Hj; [|reflexivity].
  apply Permutation_inj. split; [by rewrite !length_insert|].
  exists (λ k, if decide (k = i) then j else if decide (k = j) then i else k).
  split.
  - intros x y. repeat case_decide; intros; subst; congruence.
  - intros k. pose proof (lookup_lt_Some _ _ _ Hi). pose proof (lookup_lt_Some _ _ _ Hj).
    destruct (decide (k = i)) as [->|Hki].
    + rewrite list_lookup_insert_eq by (by rewrite length_insert). by rewrite Hj.
    + rewrite list_lookup_insert_ne by done.
      destruct (decide (k = j)) as [->|Hkj].
      * rewrite list_lookup_insert_eq by done. by rewrite Hi.
      * by rewrite list_lookup_insert_ne by done.
Qed.

Lemma shuffle_loop_perm {A} (rnd : nat → nat) (i k : nat) (l : list A) :
  shuffle_loop rnd k i l ≡ₚ l.
Proof.
  revert k l. induction i as [|i IH]; intros k l; simpl; [reflexivity|].
  rewrite IH. apply swap_perm.
Qed.

Lemma random_shuffle_perm {A} (rnd : nat → nat) (l : list A) :
  random_shuffle rnd l ≡ₚ l.
Proof. apply shuffle_loop_perm. Qed.

(** Stripping a line does not change its fields. *)
Lemma split_go_lstrip (s : string) :
  Py.split_go "" (Py.lstrip s) = Py.split_go "" s.
Proof.
  induction s as [|c s IH]; [reflexivity|].
  cbn [Py.lstrip Py.split_go]. destruct (Py.isspace c) eqn:Hc.
  - rewrite IH. reflexivity.
  - cbn [Py.split_go]. by rewrite Hc.
Qed.

Lemma split_go_blank (s : string) :
  Py.rstrip s = "" →
  ∀ cur, Py.split_go cur s = if decide (cur = "") then [] else [cur].
Proof.
  induction s as [|c s IH]; intros Hr cur; [reflexivity|].
  cbn [Py.rstrip] in Hr. cbn [Py.split_go].
  destruct (decide (Py.rstrip s = "")) as [Hs|Hs]; [|discriminate].
  destruct (Py.isspace c); [|discriminate].
  rewrite (IH Hs ""). cbn. by rewrite app_nil_r.
Qed.

Lemma split_go_rstrip (s : string) :
  ∀ cur, Py.split_go cur (Py.rstrip s) = Py.split_go cur s.
Proof.
  induction s as [|c s IH]; intros cur; [reflexivity|].
  cbn [Py.rstrip].
  destruct (decide (Py.rstrip s = "")) as [Hs|Hs].
  - destruct (Py.isspace c) eqn:Hc; cbn [Py.split_go]; rewrite ?Hc.
    + rewrite (split_go_blank s Hs ""). cbn. by rewrite app_nil_r.
    + by rewrite (split_go_blank s Hs).
  - cbn [Py.split_go]. destruct (Py.isspace c); by rewrite IH.
Qed.

Lemma split_strip (s : string) : Py.split (Py.strip s) = Py.split s.
Proof.
  unfold Py.split, Py.strip. by rewrite split_go_rstrip, split_go_lstrip.
Qed.

Lemma length_omap_filter {A B} (f : A → option B) (l : list A) :
  length (omap f l) = length (filter (λ x, is_Some (f x)) l).
Proof.
  induction l as [|x l IH]; [reflexivity|].
  cbn [omap list_omap]. rewrite filter_cons.
  destruct (f x) as [y|]; simpl; by rewrite IH.
Qed.

(** The acceptance rule of the manifest loop, spelled out. *)
Lemma line_task_Some (args : Args) (line url : string) (n y : Z) :
  line_task args line = Some (n, url, y) ↔
  ∃ size h : string,
    Py.split line = [size; h; url]
    ∧ Py.endswith url ".gkg.csv.zip" = true
    ∧ Py.int size = Some n
    ∧ year_of_url url = Some y
    ∧ year_in_range (year_from args) (year_to args) y = true.
Proof.
  unfold line_task. rewrite split_strip. split.
  - destruct (Py.split line) as [|size [|h [|u [|? ?]]]]; try discriminate.
    destruct (Py.endswith u ".gkg.csv.zip") eqn:He; [|discriminate].
    destruct (Py.int size) as [n'|] eqn:Hn; [|discriminate].
    destruct (year_of_url u) as [y'|] eqn:Hy; [|discriminate].
    destruct (year_in_range _ _ y') eqn:Hr; [|discriminate].
    intros [= -> -> ->]. exists size, h. by rewrite He, Hn, Hy, Hr.
  - intros (size & h & -> & -> & -> & -> & ->). reflexivity.
Qed.

Lemma year_in_range_spec (yf yt : option Z) (y : Z) :
  year_in_range yf yt y = true ↔
  match yf with Some a => a = 0 ∨ a ≤ y | None => True end
  ∧ match yt with Some b => b = 0 ∨ y ≤ b | None => True end.
Proof.
  unfold year_in_range. rewrite andb_true_iff.
  destruct yf as [a|], yt as [b|];
    rewrite ?orb_true_iff, ?Z.eqb_eq, ?Z.leb_le; tauto.
Qed.

(** The year filter only removes tasks: with a filter the line stands
    for the task it has without one, when its year is in range. *)
Lemma line_task_with_years (args : Args) (line : string) :
  line_task args line =
  match line_task (with_years None None args) line with
  | Some t => if year_in_range (year_from args) (year_to args) t.2
              then Some t else None
  | None => None
  end.
Proof.
  unfold line_task.
  destruct (Py.split (Py.strip line)) as [|size [|h [|u [|? ?]]]]; try reflexivity.
  destruct (Py.endswith u ".gkg.csv.zip"); [|reflexivity].
  destruct (Py.int size); [|reflexivity].
  destruct (year_of_url u); reflexivity.
Qed.

Lemma omap_line_task_filter (args : Args) (lines : list string) :
  omap (line_task args) lines =
  filter (λ t, year_in_range (year_from args) (year_to args) t.2 = true)
         (omap (line_task (with_years None None args)) lines).
Proof.
  induction lines as [|l lines IH]; [reflexivity|].
  cbn [omap list_omap]. rewrite (line_task_with_years args l).
  destruct (line_task (with_years None None args) l) as [t|]; [|exact IH].
  rewrite filter_cons.
  destruct (year_in_range _ _ t.2) eqn:Hr.
  - rewrite decide_True by done. f_equal. exact IH.
  - rewrite decide_False by done. exact IH.
Qed.

(** The year is read from what stands before the first dot of the file
    name, cut to four characters: a one-character stem is a year. *)
Lemma year_of_short_stem :
  year_of_url url_short_stem = Some 2
  ∧ line_task (Sample.args []) ("7 h " +:+ url_short_stem)
    = Some (7, url_short_stem, 2).
Proof. by vm_compute. Qed.

(** C5, as the code has it: a manifest line is accepted if and only if
    it has exactly three whitespace-separated fields, its url ends with
    the archive suffix, its size field is an integer literal of [int]
    (a sign is allowed), the url carries a year ([year_of_url]: of the
    part of the file name before its first dot, the first four
    characters, or all of it when it is shorter, are an integer literal
    of [int]), and that year is within the year range.  All
    other lines are dropped, so the manifests yield exactly as many tasks
    as they hold accepted lines, the tasks of these lines, whether
    shuffling is enabled or not. *)
Theorem parse_masterfiles_accepted_lines (args : Args) (rnd : nat → nat) :
  let lines := concat (masterfiles args) in
  (∀ line url n y,
      line_task args line = Some (n, url, y) ↔
      ∃ size h : string,
        Py.split line = [size; h; url]
        ∧ Py.endswith url ".gkg.csv.zip" = true
        ∧ Py.int size = Some n
        ∧ year_of_url url = Some y
        ∧ year_in_range (year_from args) (year_to args) y = true)
  ∧ (∀ acc line,
      parse_line args acc line =
      match line_task args line with
      | Some t => (acc.1 ++ [t], acc.2 + t.1.1)
      | None => acc
      end)
  ∧ (∀ b,
      length (parse_masterfiles (with_shuffle b args) rnd).1
      = length (filter (λ l, is_Some (line_task args l)) lines)
      ∧ (parse_masterfiles (with_shuffle b args) rnd).1
        ≡ₚ omap (line_task args) lines)
  ∧ (parse_masterfiles (with_shuffle false args) rnd).1
    = omap (line_task args) lines.
Proof.
  intros lines.
  assert (∀ b, (parse_masterfiles (with_shuffle b args) rnd).1
               ≡ₚ omap (line_task args) lines) as Hperm.
  { intros b. unfold parse_masterfiles.
    pose proof (read_masterfiles_tasks (with_shuffle b args)) as Hread.
    destruct (read_masterfiles (with_shuffle b args)) as [tasks total].
    injection Hread as -> _. cbn [fst].
    destruct (shuffle (with_shuffle b args)); [apply random_shuffle_perm|done]. }
  split; [apply line_task_Some|].
  split; [apply parse_line_task|].
  split.
  - intros b. split; [|apply Hperm].
    rewrite (Permutation_length (Hperm b)). apply length_omap_filter.
  - unfold parse_masterfiles.
    pose proof (read_masterfiles_tasks (with_shuffle false args)) as Hread.
    destruct (read_masterfiles (with_shuffle false args)) as [tasks total].
    injection Hread as -> _. reflexivity.
Qed.

(** C5 as stated fails in both directions: a line with a negative size
    is accepted, and a line that has three fields, the suffix and a
    non-negative size is dropped when its file name carries no year. *)
Lemma spec_acceptance_differs :
  spec_line_accepted Sample.line_negative_size = false
  ∧ (parse_masterfiles (Sample.args [[Sample.line_negative_size]]) (λ _, 0%nat)).1
    = [(-5, Sample.url2, 2016)]
  ∧ spec_line_accepted Sample.line_no_year = true
  ∧ (parse_masterfiles (Sample.args [[Sample.line_no_year]]) (λ _, 0%nat)).1
    = [].
Proof. vm_compute. repeat split. Qed.

(** C7 as stated fails for a bound of zero: [--year-to 0] tests false,
    so it bounds nothing and the task of year 2015 is kept. *)
Lemma zero_bound_is_no_bound :
  (0 <? 2015) = true
  ∧ parse_masterfiles (with_years None (Some 0) (Sample.args [[Sample.line1]]))
                      (λ _, 0%nat)
    = ([(1234, Sample.url1, 2015)], 1234).
Proof. by vm_compute. Qed.

(** C7, as the code has it: the year filter keeps exactly the tasks
    whose year lies between the bounds, both included, where an absent
    bound and a bound of zero bound nothing; the manifest line of the
    scenario yields no task under the filter [2016, 2020] and the task of
    year 2015 and size 1234 without filter. *)
Theorem year_filter_inclusive :
  (∀ args,
      (read_masterfiles args).1
      = filter (λ t, year_in_range (year_from args) (year_to args) t.2 = true)
               (read_masterfiles (with_years None None args)).1)
  ∧ (∀ yf yt y,
      year_in_range yf yt y = true ↔
      match yf with Some a => a = 0 ∨ a ≤ y | None => True end
      ∧ match yt with Some b => b = 0 ∨ y ≤ b | None => True end)
  ∧ (∀ b rnd,
      parse_masterfiles
        (with_shuffle b (with_years (Some 2016) (Some 2020)
                           (Sample.args [[Sample.line1]]))) rnd
      = ([], 0))
  ∧ (∀ b rnd,
      parse_masterfiles (with_shuffle b (Sample.args [[Sample.line1]])) rnd
      = ([(1234, Sample.url1, 2015)], 1234)).
Proof.
  split; [|split; [apply year_in_range_spec|split]].
  - intros args. rewrite !read_masterfiles_tasks. cbn [fst].
    apply omap_line_task_filter.
  - intros [] rnd; reflexivity.
  - intros [] rnd; reflexivity.
Qed.

(** ** The retry loop *)

Lemma trace_eq (w w' : World) :
  trace w = trace w' →
  failures w = failures w' ∧ requests w = requests w' ∧ sleeps w = sleeps w'
  ∧ logged w = logged w' ∧ unzips w = unzips w' ∧ pbar_files w = pbar_files w'.
Proof. unfold trace. intros [= -> -> -> -> -> ->]. done. Qed.

Lemma fold_bytes_trace (kept : list string) (w : World) :
  trace (fold_left (λ w c, pbar_bytes_update (Z.of_nat (String.length c)) w)
                   kept w) = trace w.
Proof.
  revert w. induction kept as [|c kept IH]; intros w; [reflexivity|].
  cbn [fold_left]. by rewrite IH.
Qed.

Lemma stream_to_trace (zip_path : Path) (chunks : list string) (w : World) :
  trace (stream_to zip_path chunks w) = trace w.
Proof. unfold stream_to. by rewrite fold_bytes_trace. Qed.

Lemma after_attempt_trace zip_path written w :
  trace (after_attempt zip_path written w) = trace w.
Proof. destruct written; [apply stream_to_trace|reflexivity]. Qed.

Section RetryLoop.
Context (env : Env) (args : Args) (url : string) (zip_path : Path).

Lemma retry_loop_404 n attempt w :
  http_get env (length (requests w)) url = Resp404 →
  retry_loop env args url zip_path (S n) attempt w
  = (log (LogNotFound url) (note_request url w), Some NotFound).
Proof. intros H. cbn [retry_loop]. by rewrite H. Qed.

Lemma retry_loop_ok n attempt w chunks :
  http_get env (length (requests w)) url = RespOk chunks →
  retry_loop env args url zip_path (S n) attempt w
  = (stream_to zip_path chunks (note_request url w), None).
Proof. intros H. cbn [retry_loop]. by rewrite H. Qed.

Lemma retry_loop_err n attempt w exn written :
  http_get env (length (requests w)) url = RespErr exn written →
  retry_loop env args url zip_path (S n) attempt w
  = let w1 := after_attempt zip_path written (note_request url w) in
    if attempt =? retries args
    then (failures_write (url +:+ nl) (log (LogFailed exn url) w1),
          Some RetriesExhausted)
    else retry_loop env args url zip_path n (attempt + 1)
                    (time_sleep (2 ^ attempt) w1).
Proof. intros H. cbn [retry_loop]. by rewrite H. Qed.

(** After [k] failed attempts that are not the last one allowed, the
    loop stands at attempt [attempt + k], having slept after each. *)
Lemma retry_loop_errors (k n : nat) (attempt : Z) (w : World) :
  (∀ j, (j < k)%nat →
        is_error (http_get env (length (requests w) + j) url) = true) →
  attempt + Z.of_nat k ≤ retries args →
  ∃ w',
    retry_loop env args url zip_path (k + n) attempt w
    = retry_loop env args url zip_path n (attempt + Z.of_nat k) w'
    ∧ requests w' = requests w ++ replicate k url
    ∧ sleeps w' = sleeps w ++ backoff attempt k
    ∧ failures w' = failures w ∧ logged w' = logged w
    ∧ unzips w' = unzips w ∧ pbar_files w' = pbar_files w.
Proof.
  revert attempt w. induction k as [|k IH]; intros attempt w Herr Hle.
  - exists w. rewrite Z.add_0_r, !app_nil_r. done.
  - pose proof (Herr 0%nat ltac:(lia)) as H0. rewrite Nat.add_0_r in H0.
    destruct (http_get env (length (requests w)) url) as [| |exn written] eqn:Hg;
      try discriminate.
    set (w1 := time_sleep (2 ^ attempt)
                 (after_attempt zip_path written (note_request url w))).
    destruct (trace_eq w1 (time_sleep (2 ^ attempt) (note_request url w)))
      as (Hf & Hr & Hs & Hl & Hu & Hp).
    { unfold w1, trace. wsimpl.
      pose proof (after_attempt_trace zip_path written (note_request url w)) as Ht.
      apply trace_eq in Ht as (-> & -> & -> & -> & -> & ->). reflexivity. }
    wsimpl.
    destruct (IH (attempt + 1) w1) as (w' & Heq & Hr' & Hs' & Hf' & Hl' & Hu' & Hp').
    { intros j Hj. rewrite Hr, length_app. simpl.
      replace (length (requests w) + 1 + j)%nat
        with (length (requests w) + S j)%nat by lia.
      apply Herr. lia. }
    { lia. }
    exists w'. split.
    + change (S k + n)%nat with (S (k + n)).
      rewrite (retry_loop_err _ _ _ _ _ Hg). cbn zeta.
      destruct (Z.eqb_spec attempt (retries args)); [lia|].
      fold w1. rewrite Heq. f_equal. lia.
    + rewrite Hr', Hs', Hf', Hl', Hu', Hp', Hr, Hs, Hf, Hl, Hu, Hp.
      cbn [replicate backoff]. rewrite <- !app_assoc. done.
Qed.

(** Whatever the server answers, the loop only fetches [url], at most
    once per iteration and at least once if it runs at all; it extracts
    nothing, leaves the file bar alone, and writes a failure record
    exactly when it gives up after the last attempt. *)
Lemma retry_loop_inv (n : nat) (attempt : Z) (w : World) :
  let r := retry_loop env args url zip_path n attempt w in
  unzips r.1 = unzips w
  ∧ pbar_files r.1 = pbar_files w
  ∧ (∃ k, (k ≤ n)%nat ∧ ((0 < n)%nat → (0 < k)%nat)
          ∧ requests r.1 = requests w ++ replicate k url)
  ∧ match r.2 with
    | None | Some NotFound => failures r.1 = failures w
    | Some RetriesExhausted => failures r.1 = failures w ++ [url +:+ nl]
    | Some _ => False
    end.
Proof.
  revert attempt w. induction n as [|n IH]; intros attempt w.
  - cbn. split; [done|]. split; [done|]. split; [|done].
    exists 0%nat. rewrite app_nil_r. split; [lia|]. split; [lia|done].
  - cbn zeta.
    destruct (http_get env (length (requests w)) url) as [|chunks|exn written] eqn:Hg.
    + rewrite (retry_loop_404 _ _ _ Hg). wsimpl.
      split; [done|]. split; [done|]. split; [|done].
      exists 1%nat. split; [lia|]. split; [lia|done].
    + rewrite (retry_loop_ok _ _ _ _ Hg). cbn [fst snd].
      destruct (trace_eq _ _ (stream_to_trace zip_path chunks (note_request url w)))
        as (-> & -> & _ & _ & -> & ->). wsimpl.
      split; [done|]. split; [done|]. split; [|done].
      exists 1%nat. split; [lia|]. split; [lia|done].
    + rewrite (retry_loop_err _ _ _ _ _ Hg). cbn zeta.
      destruct (trace_eq _ _ (after_attempt_trace zip_path written (note_request url w)))
        as (Hf & Hr & _ & _ & Hu & Hp). wsimpl.
      destruct (attempt =? retries args).
      * wsimpl. rewrite Hf, Hr, Hu, Hp.
        split; [done|]. split; [done|]. split; [|done].
      exists 1%nat. split; [lia|]. split; [lia|done].
      * specialize (IH (attempt + 1)
          (time_sleep (2 ^ attempt)
             (after_attempt zip_path written (note_request url w)))).
        cbn zeta in IH. wsimpl.
        destruct IH as (Hu' & Hp' & (k & Hk & _ & Hr') & Hm).
        rewrite Hu', Hp', Hr', Hu, Hp, Hr.
        split; [done|]. split; [done|]. split.
        { exists (S k). split; [lia|]. split; [lia|].
          rewrite <- app_assoc. done. }
        destruct (retry_loop _ _ _ _ _ _ _).2 as [[]|]; rewrite ?Hm, ?Hf; done.
Qed.

End RetryLoop.

(** ** [download_task] *)

Lemma extractall_trace (env : Env) (zip_path dir : Path) (w : World) :
  let r := extractall env zip_path dir w in
  failures r.1 = failures w ∧ requests r.1 = requests w
  ∧ sleeps r.1 = sleeps w ∧ logged r.1 = logged w
  ∧ unzips r.1 = unzips w ++ [(zip_path, dir)]
  ∧ pbar_files r.1 = pbar_files w.
Proof.
  unfold extractall. wsimpl.
  destruct (fs w !! zip_path) as [[|bytes]|]; [done| |done].
  destruct (zip_read env bytes); done.
Qed.

Lemma extract_members_app (dir : Path) (pre post : list (string * string))
    (t : FS) :
  extract_members dir (pre ++ post) t
  = match extract_members dir pre t with
    | (t', None) => extract_members dir post t'
    | r => r
    end.
Proof.
  revert t. induction pre as [|m pre IH]; intros t; [reflexivity|].
  cbn [app extract_members].
  destruct (member_error dir t m); [reflexivity|apply IH].
Qed.

(** An extraction that raises nothing has written every member. *)
Lemma extract_members_ok (dir : Path) (members : list (string * string))
    (t : FS) :
  (extract_members dir members t).2 = None →
  (extract_members dir members t).1 = fold_left (extract_member dir) members t.
Proof.
  revert t. induction members as [|m ms IH]; intros t; [reflexivity|].
  cbn [extract_members fold_left].
  destruct (member_error dir t m); [discriminate|apply IH].
Qed.

Lemma download_task_eq (env : Env) (args : Args) (task : Task) (w : World) :
  download_task env args task w =
  let w1 := with_fs (mkdir_p (raw_dir_of args task.2)) w in
  if csv_exists args task w
  then (pbar_bytes_update task.1.1 (pbar_files_update 1 w1), SkippedExtracted)
  else
    let r :=
      if negb (zip_exists args task w)
      then retry_loop env args task.1.2 (zip_path_of args task)
                      (Z.to_nat (retries args)) 1 w1
      else (pbar_bytes_update task.1.1 w1, None) in
    match r.2 with
    | Some e => (r.1, e)
    | None => finish_task env args task r.1
    end.
Proof.
  destruct task as [[size url] year].
  unfold download_task, csv_exists, zip_exists, finish_task. wsimpl.
  destruct (path_exists _ (csv_path_of _ _)); [reflexivity|].
  destruct (negb (path_exists _ (zip_path_of _ _))); wsimpl.
  - destruct (retry_loop _ _ _ _ _ _ _) as [w2 [e|]]; reflexivity.
  - reflexivity.
Qed.

Lemma finish_task_trace (env : Env) (args : Args) (task : Task) (w : World) :
  let r := finish_task env args task w in
  requests r.1 = requests w ∧ sleeps r.1 = sleeps w
  ∧ pbar_files r.1 = pbar_files w + 1
  ∧ download_failed r.2 = false
  ∧ unzips r.1 = unzips w ++
      (if skip_extract args then []
       else [(zip_path_of args task, year_dir_of args task.2)]).
Proof.
  unfold finish_task.
  destruct (skip_extract args); wsimpl.
  { rewrite app_nil_r. done. }
  pose proof (extractall_trace env (zip_path_of args task)
                (year_dir_of args task.2) w) as Ht.
  cbn zeta in Ht.
  destruct (extractall _ _ _ _) as [w' [exn|]]; wsimpl;
    destruct Ht as (_ & -> & -> & _ & -> & ->); done.
Qed.

(** [mkdir] only adds nodes at the directory and above it, so the two
    tests of the resume check read the disk as the task found it, unless
    the tested path is the raw directory or lies above it. *)
Lemma mkdir_p_lookup (p q : Path) (t : FS) :
  q ∉ prefixes p → mkdir_p p t !! q = t !! q.
Proof.
  unfold mkdir_p. generalize (prefixes p). intros l. revert t.
  induction l as [|a l IH]; intros t Hq; [reflexivity|].
  cbn [fold_left]. rewrite IH by set_solver.
  destruct (t !! a); [reflexivity|].
  apply lookup_insert_ne. set_solver.
Qed.

Lemma resume_tests_on_disk (args : Args) (task : Task) (w : World) :
  (csv_path_of args task ∉ prefixes (raw_dir_of args task.2) →
   csv_exists args task w = path_exists (fs w) (csv_path_of args task))
  ∧ (zip_path_of args task ∉ prefixes (raw_dir_of args task.2) →
     zip_exists args task w = path_exists (fs w) (zip_path_of args task)).
Proof.
  unfold csv_exists, zip_exists, path_exists.
  split; intros H; by rewrite (mkdir_p_lookup _ _ _ H).
Qed.

(** C4, as the code has it: when the extracted file exists the task
    fetches nothing and extracts nothing; else, when the archive exists,
    it fetches nothing and extracts the archive into the year directory
    unless extraction is skipped ([--skip-extract]); otherwise it runs
    the download, and extracts the archive unless the download failed or
    extraction is skipped. *)
Theorem resume_guard_cases (env : Env) (args : Args) (task : Task) (w : World) :
  let r := download_task env args task w in
  let target := (zip_path_of args task, year_dir_of args task.2) in
  if csv_exists args task w then
    r.2 = SkippedExtracted
    ∧ requests r.1 = requests w ∧ unzips r.1 = unzips w
    ∧ fs r.1 = mkdir_p (raw_dir_of args task.2) (fs w)
  else if zip_exists args task w then
    requests r.1 = requests w
    ∧ unzips r.1 = unzips w ++ (if skip_extract args then [] else [target])
  else
    (∃ k, (k ≤ Z.to_nat (retries args))%nat
          ∧ ((0 < Z.to_nat (retries args))%nat → (0 < k)%nat)
          ∧ requests r.1 = requests w ++ replicate k task.1.2)
    ∧ unzips r.1 = unzips w ++
        (if download_failed r.2 || skip_extract args then [] else [target]).
Proof.
  cbn zeta. rewrite download_task_eq. cbn zeta.
  destruct (csv_exists args task w); [done|].
  destruct (zip_exists args task w); cbn [negb fst snd].
  - pose proof (finish_task_trace env args task
      (pbar_bytes_update task.1.1
         (with_fs (mkdir_p (raw_dir_of args task.2)) w))) as Hf.
    cbn zeta in Hf. destruct Hf as (-> & _ & _ & _ & ->). done.
  - pose proof (retry_loop_inv env args task.1.2 (zip_path_of args task)
      (Z.to_nat (retries args)) 1
      (with_fs (mkdir_p (raw_dir_of args task.2)) w)) as Hl.
    cbn zeta in Hl. wsimpl.
    destruct (retry_loop _ _ _ _ _ _ _) as [w2 ret]. wsimpl.
    destruct Hl as (Hu & _ & Hk & Hm).
    destruct ret as [e|].
    + wsimpl. split; [done|]. destruct e; try done; cbn; by rewrite app_nil_r.
    + pose proof (finish_task_trace env args task w2) as Hf.
      cbn zeta in Hf. destruct Hf as (-> & _ & _ & -> & ->).
      rewrite Hu. done.
Qed.

(** C4 as stated fails in download-only mode: the archive exists, the
    extracted file does not, and the task extracts nothing.  It also
    fails when neither exists and the download ends on a 404 answer: one
    request, no extraction. *)
Lemma archive_present_not_extracted :
  let w := Sample.start Sample.disk_with_archive in
  let a := Sample.args_skip_extract [] in
  let w0 := Sample.start ∅ in
  let a0 := Sample.args [] in
  (csv_exists a Sample.task1 w = false
   ∧ zip_exists a Sample.task1 w = true
   ∧ requests (download_task Sample.env a Sample.task1 w).1 = []
   ∧ unzips (download_task Sample.env a Sample.task1 w).1 = [])
  ∧ (csv_exists a0 Sample.task1 w0 = false
     ∧ zip_exists a0 Sample.task1 w0 = false
     ∧ requests (download_task Sample.env_404 a0 Sample.task1 w0).1
       = [Sample.url1]
     ∧ unzips (download_task Sample.env_404 a0 Sample.task1 w0).1 = []).
Proof. by vm_compute. Qed.

Lemma backoff_seq (s n : nat) :
  backoff (Z.of_nat s) n = (λ a : nat, 2 ^ Z.of_nat a) <$> seq s n.
Proof.
  revert s. induction n as [|n IH]; intros s; [reflexivity|].
  cbn [backoff seq fmap list_fmap]. f_equal.
  replace (Z.of_nat s + 1) with (Z.of_nat (S s)) by lia. apply IH.
Qed.

(** C1, as the code has it: a 404 answer ends the task at once.  A
    warning is logged, no further attempt is made, nothing is extracted
    and the file bar stays; no record is written to the failure log. *)
Theorem not_found_is_terminal (env : Env) (args : Args) (task : Task)
    (w : World) (k : nat) :
  csv_exists args task w = false →
  zip_exists args task w = false →
  Z.of_nat k < retries args →
  (∀ j, (j < k)%nat →
        is_error (http_get env (length (requests w) + j) task.1.2) = true) →
  http_get env (length (requests w) + k) task.1.2 = Resp404 →
  let r := download_task env args task w in
  r.2 = NotFound
  ∧ requests r.1 = requests w ++ replicate (S k) task.1.2
  ∧ logged r.1 = logged w ++ [LogNotFound task.1.2]
  ∧ level_of (LogNotFound task.1.2) = WARNING
  ∧ failures r.1 = failures w
  ∧ unzips r.1 = unzips w
  ∧ pbar_files r.1 = pbar_files w.
Proof.
  intros Hcsv Hzip Hk Herr H404. cbn zeta.
  rewrite download_task_eq. cbn zeta. rewrite Hcsv, Hzip. cbn [negb].
  set (w1 := with_fs (mkdir_p (raw_dir_of args task.2)) w).
  destruct (retry_loop_errors env args task.1.2 (zip_path_of args task)
              k (Z.to_nat (retries args) - k) 1 w1)
    as (w' & Heq & Hr & _ & Hf & Hl & Hu & Hp); [exact Herr|lia|].
  replace (k + (Z.to_nat (retries args) - k))%nat
    with (Z.to_nat (retries args)) in Heq by lia.
  rewrite Heq.
  destruct (Z.to_nat (retries args) - k)%nat as [|m] eqn:Hm; [lia|].
  rewrite retry_loop_404.
  - wsimpl. rewrite Hr, Hf, Hl, Hu, Hp. subst w1. wsimpl.
    rewrite <- app_assoc.
    change (replicate k task.1.2 ++ [task.1.2])
      with (replicate k task.1.2 ++ replicate 1 task.1.2).
    rewrite <- replicate_add, Nat.add_1_r. done.
  - rewrite Hr, length_app, length_replicate. exact H404.
Qed.

(** C1 as stated fails: after a 404 answer the failure log is empty. *)
Lemma not_found_leaves_no_record :
  let w := Sample.start ∅ in
  let r := download_task Sample.env_404 (Sample.args []) Sample.task1 w in
  http_get Sample.env_404 0 Sample.url1 = Resp404
  ∧ r.2 = NotFound
  ∧ requests r.1 = [Sample.url1]
  ∧ failures r.1 = [].
Proof. vm_compute. done. Qed.

Lemma not_found_is_terminal_witness :
  let r := download_task Sample.env_404 (Sample.args []) Sample.task1
                         (Sample.start ∅) in
  r.2 = NotFound
  ∧ requests r.1 = [] ++ replicate 1 Sample.url1
  ∧ logged r.1 = [] ++ [LogNotFound Sample.url1]
  ∧ level_of (LogNotFound Sample.url1) = WARNING
  ∧ failures r.1 = []
  ∧ unzips r.1 = []
  ∧ pbar_files r.1 = 0.
Proof.
  apply (not_found_is_terminal Sample.env_404 (Sample.args []) Sample.task1
           (Sample.start ∅) 0).
  - vm_compute. reflexivity.
  - vm_compute. reflexivity.
  - vm_compute. reflexivity.
  - intros j Hj. lia.
  - reflexivity.
Defined.

(** C3: when every attempt fails with an error other than a 404, and
    the retry limit [R] is at least one, the task makes exactly [R]
    attempts, sleeps [2 ^ attempt] after each of them but the last, that
    is [2, 4, ..., 2 ^ (R - 1)], then writes one record, the url, to the
    failure log and stops, nothing extracted.  A fetch that succeeds
    ends the loop: no attempt follows it. *)
Theorem retries_then_one_failure_record (env : Env) (args : Args)
    (task : Task) (w : World) :
  1 ≤ retries args →
  csv_exists args task w = false →
  zip_exists args task w = false →
  let R := Z.to_nat (retries args) in
  let url := task.1.2 in
  let r := download_task env args task w in
  ((∀ j, (j < R)%nat →
         is_error (http_get env (length (requests w) + j) url) = true) →
   r.2 = RetriesExhausted
   ∧ requests r.1 = requests w ++ replicate R url
   ∧ sleeps r.1 = sleeps w ++ ((λ a : nat, 2 ^ Z.of_nat a) <$> seq 1 (R - 1))
   ∧ failures r.1 = failures w ++ [url +:+ nl]
   ∧ unzips r.1 = unzips w
   ∧ pbar_files r.1 = pbar_files w)
  ∧ (∀ k chunks,
       (k < R)%nat →
       (∀ j, (j < k)%nat →
             is_error (http_get env (length (requests w) + j) url) = true) →
       http_get env (length (requests w) + k) url = RespOk chunks →
       download_failed r.2 = false
       ∧ requests r.1 = requests w ++ replicate (S k) url
       ∧ sleeps r.1 = sleeps w ++ ((λ a : nat, 2 ^ Z.of_nat a) <$> seq 1 k)).
Proof.
  intros HR Hcsv Hzip. cbn zeta.
  rewrite download_task_eq. cbn zeta. rewrite Hcsv, Hzip. cbn [negb].
  set (w1 := with_fs (mkdir_p (raw_dir_of args task.2)) w).
  set (R := Z.to_nat (retries args)).
  split.
  - intros Herr.
    destruct (retry_loop_errors env args task.1.2 (zip_path_of args task)
                (R - 1) 1 1 w1)
      as (w' & Heq & Hr & Hs & Hf & Hl & Hu & Hp).
    { intros j Hj. apply Herr. lia. }
    { lia. }
    replace (R - 1 + 1)%nat with R in Heq by lia.
    rewrite Heq.
    pose proof (Herr (R - 1)%nat ltac:(lia)) as Hlast.
    destruct (http_get env (length (requests w) + (R - 1)) task.1.2)
      as [| |exn written] eqn:Hg; try discriminate.
    rewrite (retry_loop_err _ _ _ _ _ _ _ exn written).
    2:{ rewrite Hr, length_app, length_replicate. exact Hg. }
    cbn zeta.
    destruct (Z.eqb_spec (1 + Z.of_nat (R - 1)) (retries args)); [|lia].
    destruct (trace_eq _ _ (after_attempt_trace (zip_path_of args task) written
                              (note_request task.1.2 w')))
      as (Hf2 & Hr2 & Hs2 & _ & Hu2 & Hp2).
    wsimpl. rewrite Hf2, Hr2, Hs2, Hu2, Hp2, Hr, Hs, Hf, Hu, Hp.
    subst w1. wsimpl.
    change 1 with (Z.of_nat 1). rewrite backoff_seq.
    rewrite <- app_assoc.
    change (replicate (R - 1) task.1.2 ++ [task.1.2])
      with (replicate (R - 1) task.1.2 ++ replicate 1 task.1.2).
    rewrite <- replicate_add.
    replace (R - 1 + 1)%nat with R by lia. done.
  - intros k chunks Hk Herr Hok.
    destruct (retry_loop_errors env args task.1.2 (zip_path_of args task)
                k (R - k) 1 w1)
      as (w' & Heq & Hr & Hs & _); [exact Herr|lia|].
    replace (k + (R - k))%nat with R in Heq by lia.
    rewrite Heq.
    destruct (R - k)%nat as [|m] eqn:Hm; [lia|].
    rewrite (retry_loop_ok _ _ _ _ _ _ _ chunks).
    2:{ rewrite Hr, length_app, length_replicate. exact Hok. }
    cbn [fst snd].
    pose proof (finish_task_trace env args task
      (stream_to (zip_path_of args task) chunks (note_request task.1.2 w')))
      as Hfin.
    cbn zeta in Hfin. destruct Hfin as (-> & -> & _ & -> & _).
    destruct (trace_eq _ _ (stream_to_trace (zip_path_of args task) chunks
                              (note_request task.1.2 w')))
      as (_ & -> & -> & _).
    wsimpl. rewrite Hr, Hs. subst w1. wsimpl.
    change 1 with (Z.of_nat 1). rewrite backoff_seq.
    rewrite <- app_assoc.
    change (replicate k task.1.2 ++ [task.1.2])
      with (replicate k task.1.2 ++ replicate 1 task.1.2).
    rewrite <- replicate_add, Nat.add_1_r. done.
Qed.

Lemma retries_then_one_failure_record_witness :
  let r := download_task Sample.env_down (Sample.args []) Sample.task1
                         (Sample.start ∅) in
  r.2 = RetriesExhausted
  ∧ requests r.1 = [Sample.url1; Sample.url1; Sample.url1]
  ∧ sleeps r.1 = [2; 4]
  ∧ failures r.1 = [Sample.url1 +:+ nl]
  ∧ unzips r.1 = []
  ∧ pbar_files r.1 = 0.
Proof.
  refine (proj1 (retries_then_one_failure_record Sample.env_down
                   (Sample.args []) Sample.task1 (Sample.start ∅) _ _ _) _).
  - vm_compute. discriminate.
  - vm_compute. reflexivity.
  - vm_compute. reflexivity.
  - intros j Hj. reflexivity.
Defined.

(** ** How a task ends *)

Lemma concat_chunks_filter (chunks : list string) :
  concat_chunks (filter (λ c, c ≠ "") chunks) = concat_chunks chunks.
Proof.
  induction chunks as [|c chunks IH]; [reflexivity|].
  rewrite filter_cons. destruct (decide (c ≠ "")) as [Hc|Hc].
  - unfold concat_chunks in *. cbn [foldr]. by rewrite IH.
  - apply dec_stable in Hc as ->. exact IH.
Qed.

Lemma fs_fold_bytes (kept : list string) (w : World) :
  fs (fold_left (λ w c, pbar_bytes_update (Z.of_nat (String.length c)) w)
                kept w) = fs w.
Proof.
  revert w. induction kept as [|c kept IH]; intros w; [reflexivity|].
  cbn [fold_left]. by rewrite IH.
Qed.

Lemma fs_stream_to (zip_path : Path) (chunks : list string) (w : World) :
  fs (stream_to zip_path chunks w)
  = <[zip_path := File (concat_chunks (filter (λ c, c ≠ "") chunks))]> (fs w).
Proof. unfold stream_to. by rewrite fs_fold_bytes. Qed.

(** The loop ends on the first answer that is not an exception: with the
    body stored at the archive path, or on the 404 status; when every
    attempt raises, it ends on the last one allowed. *)
Lemma retry_loop_first_answer env args url zip_path (n : nat) (attempt : Z)
    (w : World) :
  attempt + Z.of_nat n = retries args + 1 →
  let r := retry_loop env args url zip_path n attempt w in
  match first_answer env url (length (requests w)) n with
  | Some (RespOk chunks) =>
      r.2 = None
      ∧ fs r.1 = <[zip_path := File (concat_chunks chunks)]> (fs w)
  | Some Resp404 => r.2 = Some NotFound
  | Some (RespErr _ _) => False
  | None =>
      match n with
      | O => r = (w, None)
      | S _ => r.2 = Some RetriesExhausted
      end
  end.
Proof.
  revert attempt w. induction n as [|n IH]; intros attempt w Hinv; cbn zeta.
  { reflexivity. }
  cbn [first_answer].
  destruct (http_get env (length (requests w)) url) as [|chunks|exn written] eqn:Hg.
  - by rewrite (retry_loop_404 _ _ _ _ _ _ _ Hg).
  - rewrite (retry_loop_ok _ _ _ _ _ _ _ _ Hg). cbn [fst snd].
    split; [done|]. by rewrite fs_stream_to, concat_chunks_filter.
  - rewrite (retry_loop_err _ _ _ _ _ _ _ _ _ Hg). cbn zeta.
    destruct (Z.eqb_spec attempt (retries args)) as [Heq|Hne].
    + destruct n; [reflexivity|lia].
    + set (w1 := time_sleep (2 ^ attempt)
                   (after_attempt zip_path written (note_request url w))).
      specialize (IH (attempt + 1) w1 ltac:(lia)). cbn zeta in IH.
      assert (length (requests w1) = S (length (requests w))) as Hlen.
      { subst w1. wsimpl.
        destruct (trace_eq _ _ (after_attempt_trace zip_path written
                                  (note_request url w))) as (_ & -> & _).
        wsimpl. rewrite length_app. cbn [length]. lia. }
      rewrite Hlen in IH.
      destruct (first_answer env url (S (length (requests w))) n)
        as [[|chunks|]|]; try done.
      * destruct IH as [-> ->]. split; [done|].
        subst w1. wsimpl. destruct written as [partial|]; cbn [after_attempt].
        -- rewrite fs_stream_to. wsimpl. apply insert_insert_eq.
        -- done.
      * destruct n; [lia|exact IH].
Qed.

Lemma extractall_error env zip_path dir w :
  (extractall env zip_path dir w).2 = extract_error env (fs w) zip_path dir.
Proof.
  unfold extractall, extract_error. wsimpl.
  destruct (fs w !! zip_path) as [[|bytes]|]; [done| |done].
  destruct (zip_read env bytes); done.
Qed.

Lemma finish_task_exit env args task w :
  (finish_task env args task w).2 = exit_after_download env args task (fs w).
Proof.
  unfold finish_task, exit_after_download.
  destruct (skip_extract args); cbn [negb]; [done|].
  rewrite <- extractall_error.
  destruct (extractall _ _ _ _) as [w' [exn|]]; done.
Qed.

(** The point at which a task stops is the one its inputs call for. *)
Lemma download_task_exit env args task w :
  (download_task env args task w).2 = expected_exit env args task w.
Proof.
  rewrite download_task_eq. unfold expected_exit. cbn zeta.
  destruct (csv_exists args task w); [done|].
  destruct (zip_exists args task w); cbn [negb fst snd].
  { by rewrite finish_task_exit. }
  set (w1 := with_fs (mkdir_p (raw_dir_of args task.2)) w).
  destruct (Z.le_gt_cases (retries args) 0) as [HR|HR].
  - replace (Z.to_nat (retries args)) with 0%nat by lia.
    cbn [retry_loop first_answer fst snd].
    rewrite bool_decide_eq_false_2 by lia. by rewrite finish_task_exit.
  - pose proof (retry_loop_first_answer env args task.1.2
                  (zip_path_of args task) (Z.to_nat (retries args)) 1 w1) as Hl.
    cbn zeta in Hl. specialize (Hl ltac:(lia)).
    change (length (requests w1)) with (length (requests w)) in Hl.
    destruct (first_answer env task.1.2 (length (requests w))
                (Z.to_nat (retries args))) as [[|chunks|]|].
    + by rewrite Hl.
    + destruct Hl as [-> Hfs]. by rewrite finish_task_exit, Hfs.
    + done.
    + rewrite bool_decide_eq_true_2 by lia.
      destruct (Z.to_nat (retries args)) eqn:Hn; [lia|]. by rewrite Hl.
Qed.

Lemma submit_downloads_failed env args tasks w :
  length (filter (λ e, download_failed e = true)
                 (submit_downloads env args tasks w).2)
  = failed_downloads env args tasks w.
Proof.
  revert w. induction tasks as [|t tasks IH]; intros w; [reflexivity|].
  cbn [submit_downloads failed_downloads].
  rewrite <- (download_task_exit env args t w), <- IH.
  destruct (download_task env args t w) as [w1 e]. cbn [fst snd].
  destruct (submit_downloads env args tasks w1) as [w2 es]. cbn [fst snd].
  rewrite filter_cons.
  destruct (download_failed e);
    [rewrite decide_True by done|rewrite decide_False by done];
    cbn [length]; lia.
Qed.

(** ** The file bar *)

Lemma download_task_bar (env : Env) (args : Args) (task : Task) (w : World) :
  let r := download_task env args task w in
  pbar_files r.1 = pbar_files w + bar_step r.2.
Proof.
  cbn zeta. rewrite download_task_eq. cbn zeta.
  destruct (csv_exists args task w); [done|].
  destruct (zip_exists args task w); cbn [negb fst snd].
  - pose proof (finish_task_trace env args task
      (pbar_bytes_update task.1.1
         (with_fs (mkdir_p (raw_dir_of args task.2)) w))) as Hf.
    cbn zeta in Hf. destruct Hf as (_ & _ & -> & Hd & _).
    destruct (finish_task _ _ _ _).2; done.
  - pose proof (retry_loop_inv env args task.1.2 (zip_path_of args task)
      (Z.to_nat (retries args)) 1
      (with_fs (mkdir_p (raw_dir_of args task.2)) w)) as Hl.
    cbn zeta in Hl.
    destruct (retry_loop _ _ _ _ _ _ _) as [w2 ret]. wsimpl.
    destruct Hl as (_ & Hp & _ & Hm).
    destruct ret as [e|].
    + wsimpl. rewrite Hp. destruct e; try done; cbn; lia.
    + pose proof (finish_task_trace env args task w2) as Hf.
      cbn zeta in Hf. destruct Hf as (_ & _ & -> & Hd & _).
      rewrite Hp. destruct (finish_task _ _ _ _).2; done.
Qed.

Lemma submit_downloads_bar (env : Env) (args : Args) (tasks : list Task)
    (w : World) :
  let r := submit_downloads env args tasks w in
  length r.2 = length tasks
  ∧ pbar_files r.1 = pbar_files w + foldr (λ e s, bar_step e + s) 0 r.2.
Proof.
  revert w. induction tasks as [|t tasks IH]; intros w.
  - cbn. split; [done|lia].
  - cbn [submit_downloads].
    pose proof (download_task_bar env args t w) as Ht. cbn zeta in Ht.
    destruct (download_task env args t w) as [w1 e].
    specialize (IH w1). cbn zeta in IH.
    destruct (submit_downloads env args tasks w1) as [w2 es].
    wsimpl. destruct IH as [Hlen Hbar].
    cbn [length foldr]. rewrite Hlen, Hbar, Ht. split; [done|lia].
Qed.

Lemma bar_steps_bound (es : list exit_point) :
  foldr (λ e s, bar_step e + s) 0 es
  = Z.of_nat (length es)
    - Z.of_nat (length (filter (λ e, download_failed e = true) es)).
Proof.
  induction es as [|e es IH]; [reflexivity|].
  cbn [foldr]. rewrite IH, filter_cons.
  destruct e; cbn [download_failed bar_step];
    (rewrite decide_True by done) || (rewrite decide_False by done);
    cbn [length]; lia.
Qed.

(** C9: what a task does to the file bar, read off the disk it finds
    and the answers of the server.  The task stops where these call for
    ([expected_exit]); it advances the file bar by exactly one when that
    is the resume check, the end of a download (extracted or not) or an
    extraction that raised, and not at all when it is a 404 answer or the
    last failed attempt.  The download stage fails exactly when neither
    the extracted file nor the archive is there and the first answer that
    is not an exception is a 404 status, or every one of the attempts
    allowed (at least one) raises.  Hence a run moves the bar by the
    number of tasks minus the number of tasks whose download stage fails,
    so by strictly less than the number of tasks when there is such a
    task; [main] starts the bar at zero.  On the sample manifest of two
    lines the bar ends at 2 when the server has both archives and at 0
    when it has none. *)
Theorem file_bar_skips_download_failures (env : Env) (args : Args) :
  (∀ task w,
      let r := download_task env args task w in
      r.2 = expected_exit env args task w
      ∧ pbar_files r.1 = pbar_files w +
          match expected_exit env args task w with
          | SkippedExtracted | DownloadedOnly | Extracted | ExtractFailed _ => 1
          | NotFound | RetriesExhausted => 0
          end
      ∧ (download_failed (expected_exit env args task w) = true ↔
         csv_exists args task w = false
         ∧ zip_exists args task w = false
         ∧ match first_answer env task.1.2 (length (requests w))
                              (Z.to_nat (retries args)) with
           | Some (RespOk _) => False
           | Some _ => True
           | None => 0 < retries args
           end))
  ∧ (∀ tasks w,
      let r := submit_downloads env args tasks w in
      let failed := failed_downloads env args tasks w in
      length (filter (λ e, download_failed e = true) r.2) = failed
      ∧ pbar_files r.1
        = pbar_files w + Z.of_nat (length tasks) - Z.of_nat failed
      ∧ ((0 < failed)%nat →
         pbar_files r.1 - pbar_files w < Z.of_nat (length tasks)))
  ∧ (∀ w,
      0 < workers args →
      let p := parse_masterfiles args (rnd env) in
      let failed :=
        failed_downloads env args p.1 (bars_start args (length p.1) p.2 w) in
      pbar_files (main_download env args w).1
      = Z.of_nat (length p.1) - Z.of_nat failed
      ∧ ((0 < failed)%nat →
         pbar_files (main_download env args w).1 < Z.of_nat (length p.1)))
  ∧ (let a := Sample.args [[Sample.line1; Sample.line2]] in
     length (parse_masterfiles a (λ _, 0%nat)).1 = 2%nat
     ∧ pbar_files (main_download Sample.env a (Sample.start ∅)).1 = 2
     ∧ pbar_files (main_download Sample.env_404 a (Sample.start ∅)).1 = 0).
Proof.
  split; [|split; [|split]].
  - intros task w. cbn zeta. split; [apply download_task_exit|]. split.
    + pose proof (download_task_bar env args task w) as Hb. cbn zeta in Hb.
      by rewrite download_task_exit in Hb.
    + unfold expected_exit, exit_after_download. cbn zeta.
      destruct (csv_exists args task w); [cbn; intuition discriminate|].
      destruct (zip_exists args task w).
      { destruct (skip_extract args); [|destruct (extract_error _ _ _ _)];
          cbn; intuition discriminate. }
      destruct (first_answer env task.1.2 (length (requests w))
                  (Z.to_nat (retries args))) as [[|chunks|]|].
      * cbn. intuition.
      * destruct (skip_extract args); [|destruct (extract_error _ _ _ _)];
          cbn; intuition discriminate.
      * cbn. intuition.
      * case_bool_decide as HR; [cbn; intuition|].
        destruct (skip_extract args); [|destruct (extract_error _ _ _ _)];
          cbn; intuition discriminate.
  - intros tasks w. cbn zeta.
    destruct (submit_downloads_bar env args tasks w) as [Hlen Hbar].
    pose proof (submit_downloads_failed env args tasks w) as Hfail.
    rewrite Hbar, bar_steps_bound, Hlen, Hfail.
    split; [done|]. split; lia.
  - intros w Hw. cbn zeta. unfold main_download.
    destruct (parse_masterfiles args (rnd env)) as [tasks total]. cbn [fst snd].
    destruct (Z.leb_spec (workers args) 0); [lia|].
    destruct (submit_downloads_bar env args tasks
                (bars_start args (length tasks) total w)) as [Hlen Hbar].
    pose proof (submit_downloads_failed env args tasks
                  (bars_start args (length tasks) total w)) as Hfail.
    wsimpl. rewrite Hbar, bar_steps_bound, Hlen, Hfail. wsimpl.
    split; lia.
  - by vm_compute.
Qed.

(** ** The extraction phase *)

Lemma extract_one_trace (env : Env) (zip_path dir : Path) (w : World) :
  unzips (extract_one env zip_path dir w) = unzips w ++ [(zip_path, dir)]
  ∧ requests (extract_one env zip_path dir w) = requests w.
Proof.
  unfold extract_one.
  pose proof (extractall_trace env zip_path dir w) as Ht. cbn zeta in Ht.
  destruct (extractall env zip_path dir w) as [w' [exn|]]; wsimpl;
    destruct Ht as (_ & -> & _ & _ & -> & _); done.
Qed.

Lemma submit_extractions_unzips (env : Env) (zip_paths : list Path)
    (w : World) :
  Forall (λ zp, is_Some (PathLib.parents zp 2)) zip_paths →
  let r := submit_extractions env zip_paths w in
  r.2 = ExitOk
  ∧ unzips r.1
    = unzips w ++ ((λ zp, (zp, take (length zp - 3) zp)) <$> zip_paths)
  ∧ requests r.1 = requests w.
Proof.
  intros Hall. revert w.
  induction Hall as [|zp zps [dir Hdir] _ IH]; intros w; cbn [submit_extractions].
  - cbn. by rewrite app_nil_r.
  - rewrite Hdir. specialize (IH (extract_one env zp dir w)). cbn zeta in IH.
    destruct IH as (-> & -> & ->).
    destruct (extract_one_trace env zp dir w) as [-> ->].
    unfold PathLib.parents in Hdir. case_bool_decide; [|discriminate].
    injection Hdir as <-.
    rewrite <- app_assoc. cbn [fmap list_fmap app].
    replace (length zp - 1 - 2)%nat with (length zp - 3)%nat by lia. done.
Qed.

Lemma elem_of_rglob (root : Path) (raw : string) (t : FS) (p : Path) :
  p ∈ rglob root raw t ↔ is_Some (t !! p) ∧ glob_match root raw p = true.
Proof.
  unfold rglob. rewrite list_elem_of_filter, list_elem_of_fmap.
  split.
  - intros [Hm ([q x] & -> & Hin)]. apply elem_of_map_to_list in Hin. eauto.
  - intros [[x Hx] Hm]. split; [done|].
    exists (p, x). split; [done|]. by apply elem_of_map_to_list.
Qed.

Lemma year_filter_kept (args : Args) (zip_paths kept : list Path) :
  year_filter args zip_paths = inr kept →
  kept = filter (λ p, dir_year_ok args p = true) zip_paths.
Proof.
  revert kept. induction zip_paths as [|p ps IH]; intros kept; cbn [year_filter].
  - by intros [= <-].
  - destruct (PathLib.part_from_end p 3) as [d|] eqn:Hp; [|discriminate].
    destruct (Py.int d) as [y|] eqn:Hy; [|discriminate].
    destruct (year_filter args ps) as [e|kept']; [discriminate|].
    intros [= <-]. rewrite filter_cons, <- (IH kept' eq_refl).
    assert (dir_year_ok args p
            = (Py.or_default (year_from args) 0 <=? y)
              && (y <=? Py.or_default (year_to args) 9999)) as ->.
    { unfold dir_year_ok, dir_year. rewrite Hp. cbn. by rewrite Hy. }
    destruct (_ && _); [by rewrite decide_True|by rewrite decide_False].
Qed.

(** ** Where the archives are extracted *)

(** The inline mode extracts into the year directory: the archive path
    without its last two parts. *)
Lemma inline_target_is_year_dir :
  let a := Sample.args [] in
  year_dir_of a 2015 = ["data"; "2015"]
  ∧ zip_path_of a Sample.task1 = Sample.zip1
  ∧ unzips (download_task Sample.env a Sample.task1
              (Sample.start Sample.disk_with_archive)).1
    = [(Sample.zip1, ["data"; "2015"])].
Proof. by vm_compute. Qed.

Lemma parents_of_layout (root : Path) (y r f : string) :
  root ≠ [] ∨ y ≠ "/" →
  PathLib.parents (root ++ [y; r; f]) 2 = Some root
  ∧ PathLib.parents (root ++ [y; r; f]) 1 = Some (root ++ [y]).
Proof.
  intros Hroot. unfold PathLib.parents. rewrite length_app. cbn [length].
  assert (PathLib.is_abs (root ++ [y; r; f]) = true → root ≠ []) as Habs.
  { destruct root; [|done]. cbn. intros Hy%bool_decide_eq_true. by destruct Hroot. }
  destruct (PathLib.is_abs (root ++ [y; r; f])).
  - specialize (Habs eq_refl). destruct root as [|c root]; [done|].
    cbn [length]. rewrite !bool_decide_eq_true_2 by lia.
    replace (S (length root) + 3 - 1 - 2)%nat with (length (c :: root))
      by (cbn [length]; lia).
    replace (S (length root) + 3 - 1 - 1)%nat
      with (length (c :: root) + 1)%nat by (cbn [length]; lia).
    rewrite take_app_length, take_app_add. done.
  - rewrite !bool_decide_eq_true_2 by lia.
    replace (length root + 3 - 1 - 2)%nat with (length root) by lia.
    replace (length root + 3 - 1 - 1)%nat with (length root + 1)%nat by lia.
    rewrite take_app_length, take_app_add. done.
Qed.

(** C2 fails in the extraction phase.  For an archive at
    [root/<year>/<raw>/<file>], [zp.parents[2]] is [root]: the archive
    path without its last three parts, where the year directory is
    [zp.parents[1]].  So the member of [data/2015/rawdata/<archive>] is
    written to [data/] and not to [data/2015/]. *)
Theorem extract_only_target_is_output_root :
  (∀ (root : Path) (y r f : string),
      root ≠ [] ∨ y ≠ "/" →
      PathLib.parents (root ++ [y; r; f]) 2 = Some root
      ∧ PathLib.parents (root ++ [y; r; f]) 1 = Some (root ++ [y])
      ∧ root ≠ root ++ [y])
  ∧ let r := script Sample.env Sample.args_extract_only
                    (Sample.start Sample.disk_with_archive) in
    r.2 = ExitOk
    ∧ unzips r.1 = [(Sample.zip1, ["data"])]
    ∧ fs r.1 !! ["data"; "20150218230000.gkg.csv"] = Some (File "rows")
    ∧ fs r.1 !! ["data"; "2015"; "20150218230000.gkg.csv"] = None.
Proof.
  split; [|by vm_compute].
  intros root y r f Hroot.
  destruct (parents_of_layout root y r f Hroot) as [-> ->].
  split; [done|]. split; [done|].
  intros Heq. apply (f_equal length) in Heq. rewrite length_app in Heq.
  cbn [length] in Heq. lia.
Qed.

(** C6 fails for the same reason.  After a combined run over a manifest
    of two lines, a run of the extraction phase over the same output root
    adds a copy of each extracted file directly below the output root;
    and a download-only run followed by the extraction phase leaves the
    year directories without their extracted files. *)
Theorem split_and_combined_runs_differ :
  let manifest := [[Sample.line1; Sample.line2]] in
  let combined := script Sample.env (Sample.args manifest) (Sample.start ∅) in
  let again := script Sample.env Sample.args_extract_only
                      (Sample.start (fs combined.1)) in
  let fetched := script Sample.env (Sample.args_skip_extract manifest)
                        (Sample.start ∅) in
  let split := script Sample.env Sample.args_extract_only
                      (Sample.start (fs fetched.1)) in
  let stray := ["data"; "20150218230000.gkg.csv"] in
  let wanted := ["data"; "2015"; "20150218230000.gkg.csv"] in
  combined.2 = ExitOk ∧ again.2 = ExitOk ∧ fetched.2 = ExitOk ∧ split.2 = ExitOk
  ∧ fs combined.1 !! wanted = Some (File "rows")
  ∧ fs combined.1 !! stray = None
  ∧ fs again.1 !! stray = Some (File "rows")
  ∧ fs split.1 !! stray = Some (File "rows")
  ∧ fs split.1 !! wanted = None.
Proof. by vm_compute. Qed.

(** * Further properties of the code *)

(** ** Nothing is ever deleted *)

Lemma keeps_refl (t : FS) : keeps t t.
Proof. by intros p. Qed.

Lemma keeps_trans (t1 t2 t3 : FS) : keeps t1 t2 → keeps t2 t3 → keeps t1 t3.
Proof. intros H1 H2 p Hp. by apply H2, H1. Qed.

Lemma keeps_insert (q : Path) (x : node) (t : FS) : keeps t (<[q := x]> t).
Proof.
  intros p Hp. destruct (decide (q = p)) as [->|Hne].
  - rewrite lookup_insert_eq. eauto.
  - by rewrite lookup_insert_ne.
Qed.

Lemma keeps_mkdir_p (p : Path) (t : FS) : keeps t (mkdir_p p t).
Proof.
  unfold mkdir_p. generalize (prefixes p). intros l. revert t.
  induction l as [|q l IH]; intros t; [apply keeps_refl|].
  cbn [fold_left]. eapply keeps_trans; [|apply IH].
  destruct (t !! q); [apply keeps_refl|apply keeps_insert].
Qed.

Lemma keeps_write_file (p : Path) (bytes : string) (t : FS) :
  keeps t (write_file p bytes t).
Proof.
  unfold write_file.
  eapply keeps_trans; [apply keeps_mkdir_p|apply keeps_insert].
Qed.

Lemma keeps_extract_member (dir : Path) (m : string * string) (t : FS) :
  keeps t (extract_member dir t m).
Proof.
  unfold extract_member.
  destruct (Py.endswith m.1 "/"); [apply keeps_mkdir_p|apply keeps_write_file].
Qed.

Lemma keeps_extract_members (dir : Path) (members : list (string * string))
    (t : FS) :
  keeps t (extract_members dir members t).1.
Proof.
  revert t. induction members as [|m ms IH]; intros t; [apply keeps_refl|].
  cbn [extract_members].
  destruct (member_error dir t m); [apply keeps_refl|].
  eapply keeps_trans; [apply keeps_extract_member|apply IH].
Qed.

Lemma keeps_fold_extract_member (dir : Path)
    (members : list (string * string)) (t : FS) :
  keeps t (fold_left (extract_member dir) members t).
Proof.
  revert t. induction members as [|m ms IH]; intros t; [apply keeps_refl|].
  cbn [fold_left]. eapply keeps_trans; [|apply IH].
  unfold extract_member.
  destruct (Py.endswith m.1 "/"); [apply keeps_mkdir_p|apply keeps_write_file].
Qed.

Lemma keeps_after_attempt zip_path written w :
  keeps (fs w) (fs (after_attempt zip_path written w)).
Proof.
  destruct written as [chunks|]; [|apply keeps_refl].
  cbn [after_attempt]. rewrite fs_stream_to. apply keeps_insert.
Qed.

Lemma keeps_retry_loop env args url zip_path n attempt w :
  keeps (fs w) (fs (retry_loop env args url zip_path n attempt w).1).
Proof.
  revert attempt w. induction n as [|n IH]; intros attempt w; [apply keeps_refl|].
  destruct (http_get env (length (requests w)) url) as [|chunks|exn written] eqn:Hg.
  - rewrite (retry_loop_404 _ _ _ _ _ _ _ Hg). apply keeps_refl.
  - rewrite (retry_loop_ok _ _ _ _ _ _ _ _ Hg). cbn [fst].
    rewrite fs_stream_to. apply keeps_insert.
  - rewrite (retry_loop_err _ _ _ _ _ _ _ _ _ Hg). cbn zeta.
    destruct (attempt =? retries args).
    + wsimpl. apply (keeps_after_attempt zip_path written (note_request url w)).
    + eapply keeps_trans; [|apply IH]. wsimpl.
      apply (keeps_after_attempt zip_path written (note_request url w)).
Qed.

Lemma keeps_extractall env zip_path dir w :
  keeps (fs w) (fs (extractall env zip_path dir w).1).
Proof.
  unfold extractall. wsimpl.
  destruct (fs w !! zip_path) as [[|bytes]|]; try apply keeps_refl.
  destruct (zip_read env bytes); [apply keeps_refl|].
  wsimpl. apply keeps_extract_members.
Qed.

Lemma keeps_finish_task env args task w :
  keeps (fs w) (fs (finish_task env args task w).1).
Proof.
  unfold finish_task. destruct (skip_extract args); wsimpl; [apply keeps_refl|].
  pose proof (keeps_extractall env (zip_path_of args task)
                (year_dir_of args task.2) w) as H.
  destruct (extractall _ _ _ _) as [w' [exn|]]; wsimpl; exact H.
Qed.

Lemma keeps_download_task env args task w :
  keeps (fs w) (fs (download_task env args task w).1).
Proof.
  rewrite download_task_eq. cbn zeta.
  assert (keeps (fs w) (fs (with_fs (mkdir_p (raw_dir_of args task.2)) w)))
    as Hmk by (wsimpl; apply keeps_mkdir_p).
  destruct (csv_exists args task w); [exact Hmk|].
  destruct (zip_exists args task w); cbn [negb fst snd].
  - eapply keeps_trans; [exact Hmk|].
    apply (keeps_finish_task env args task
             (pbar_bytes_update task.1.1
                (with_fs (mkdir_p (raw_dir_of args task.2)) w))).
  - pose proof (keeps_retry_loop env args task.1.2 (zip_path_of args task)
      (Z.to_nat (retries args)) 1
      (with_fs (mkdir_p (raw_dir_of args task.2)) w)) as Hl.
    destruct (retry_loop _ _ _ _ _ _ _) as [w2 [e|]]; cbn [fst snd] in *.
    + eapply keeps_trans; [exact Hmk|exact Hl].
    + eapply keeps_trans; [exact Hmk|].
      eapply keeps_trans; [exact Hl|apply keeps_finish_task].
Qed.

Lemma keeps_extract_one env zip_path dir w :
  keeps (fs w) (fs (extract_one env zip_path dir w)).
Proof.
  unfold extract_one.
  pose proof (keeps_extractall env zip_path dir w) as H.
  destruct (extractall _ _ _ _) as [w' [exn|]]; wsimpl; exact H.
Qed.

Lemma keeps_submit_extractions env zip_paths w :
  keeps (fs w) (fs (submit_extractions env zip_paths w).1).
Proof.
  revert w. induction zip_paths as [|zp zps IH]; intros w; [apply keeps_refl|].
  cbn [submit_extractions].
  destruct (PathLib.parents zp 2) as [dir|]; [|apply keeps_refl].
  eapply keeps_trans; [apply keeps_extract_one|apply IH].
Qed.

Lemma keeps_submit_downloads env args tasks w :
  keeps (fs w) (fs (submit_downloads env args tasks w).1).
Proof.
  revert w. induction tasks as [|t tasks IH]; intros w; [apply keeps_refl|].
  cbn [submit_downloads].
  pose proof (keeps_download_task env args t w) as Ht.
  destruct (download_task env args t w) as [w1 e].
  specialize (IH w1).
  destruct (submit_downloads env args tasks w1) as [w2 es].
  cbn [fst] in *. by eapply keeps_trans.
Qed.

Lemma keeps_main env args w : keeps (fs w) (fs (main env args w).1).
Proof.
  unfold main. destruct (extract_only args).
  - unfold main_extract_only.
    destruct (discover args (fs w)) as [exn|zip_paths]; [apply keeps_refl|].
    destruct (extract_workers args <=? 0); [apply keeps_refl|].
    pose proof (keeps_submit_extractions env zip_paths
      (log (LogStartExtraction (length zip_paths) (extract_workers args)
              (extract_mode args)) w)) as Hs.
    destruct (submit_extractions env zip_paths _) as [w2 []]; exact Hs.
  - unfold main_download.
    destruct (parse_masterfiles args (rnd env)) as [tasks total].
    destruct (workers args <=? 0); [apply keeps_refl|].
    wsimpl.
    apply (keeps_submit_downloads env args tasks
             (bars_start args (length tasks) total w)).
Qed.

Lemma path_exists_keeps (t t' : FS) (p : Path) :
  keeps t t' → path_exists t p = true → path_exists t' p = true.
Proof.
  unfold path_exists. intros Hk Hp.
  apply bool_decide_eq_true in Hp. apply bool_decide_eq_true.
  destruct Hp as [?|[?|?]]; auto.
Qed.

(** X1: the program never deletes or renames anything.  Every path that
    exists before a call of [download_task], of [extract_one], or before
    a run of the whole script, still exists afterwards. *)
Theorem nothing_is_deleted (env : Env) (args : Args) (w : World) (p : Path) :
  path_exists (fs w) p = true →
  (∀ task, path_exists (fs (download_task env args task w).1) p = true)
  ∧ (∀ zip_path dir, path_exists (fs (extract_one env zip_path dir w)) p = true)
  ∧ path_exists (fs (script env args w).1) p = true.
Proof.
  intros Hp. split; [|split].
  - intros task. eapply path_exists_keeps; [apply keeps_download_task|done].
  - intros zp dir. eapply path_exists_keeps; [apply keeps_extract_one|done].
  - unfold script. destruct (skip_extract args && extract_only args); [done|].
    eapply path_exists_keeps; [|exact Hp].
    eapply keeps_trans; [|apply keeps_main]. wsimpl. apply keeps_mkdir_p.
Qed.

Lemma nothing_is_deleted_witness :
  path_exists
    (fs (script Sample.env Sample.args_extract_only
           (Sample.start Sample.disk_with_archive)).1)
    Sample.zip1 = true.
Proof.
  apply (nothing_is_deleted Sample.env Sample.args_extract_only
           (Sample.start Sample.disk_with_archive) Sample.zip1).
  vm_compute. reflexivity.
Defined.

(** ** Directories *)

Lemma keeps_mkdir_fold (l : list Path) (t : FS) :
  keeps t (fold_left (λ t q, match t !! q with
                             | None => <[q := Dir]> t
                             | Some _ => t
                             end) l t).
Proof.
  revert t. induction l as [|q l IH]; intros t; [apply keeps_refl|].
  cbn [fold_left]. eapply keeps_trans; [|apply IH].
  destruct (t !! q); [apply keeps_refl|apply keeps_insert].
Qed.

Lemma mkdir_p_creates (p q : Path) (t : FS) :
  q ∈ prefixes p → is_Some (mkdir_p p t !! q).
Proof.
  unfold mkdir_p. generalize (prefixes p). intros l. revert t.
  induction l as [|a l IH]; intros t Hq; [by apply elem_of_nil in Hq|].
  apply elem_of_cons in Hq as [->|Hq]; [|by apply IH].
  cbn [fold_left]. apply keeps_mkdir_fold.
  destruct (t !! a) eqn:Ha; [by rewrite Ha|].
  rewrite lookup_insert_eq. eauto.
Qed.

Lemma prefixes_self (p : Path) : p ≠ [] → p ∈ prefixes p.
Proof.
  intros Hp. unfold prefixes. apply list_elem_of_fmap.
  exists (length p). split; [by rewrite firstn_all|].
  apply elem_of_seq. destruct p; [done|]. cbn [length]. lia.
Qed.

Lemma mkdir_p_exists (p : Path) (t : FS) : path_exists (mkdir_p p t) p = true.
Proof.
  unfold path_exists. apply bool_decide_eq_true.
  destruct (decide (p = [])) as [->|Hp]; [by left|].
  right. right. by apply mkdir_p_creates, prefixes_self.
Qed.



(** ** The extraction phase, archive by archive *)

Lemma submit_extractions_fold (env : Env) (zip_paths : list Path) (w : World) :
  Forall (λ zp, is_Some (PathLib.parents zp 2)) zip_paths →
  submit_extractions env zip_paths w
  = (fold_left (λ w zp, extract_one env zp (take (length zp - 3) zp) w)
               zip_paths w, ExitOk).
Proof.
  intros Hall. revert w.
  induction Hall as [|zp zps [dir Hdir] _ IH]; intros w;
    cbn [submit_extractions fold_left]; [done|].
  rewrite Hdir, IH. unfold PathLib.parents in Hdir.
  case_bool_decide; [|discriminate]. injection Hdir as <-.
  by replace (length zp - 1 - 2)%nat with (length zp - 3)%nat by lia.
Qed.

(** What [extract_one] leaves: a record and an error message when the
    extraction raises, the members written when it does not. *)
Lemma extract_one_effect (env : Env) (zp dir : Path) (w : World) :
  let w' := extract_one env zp dir w in
  match extract_error env (fs w) zp dir with
  | Some exn =>
      failures w' = failures w ++ [PathLib.render zp +:+ nl]
      ∧ logged w' = logged w ++ [LogExtractError exn zp]
  | None =>
      failures w' = failures w
      ∧ ∃ bytes members,
          fs w !! zp = Some (File bytes)
          ∧ zip_read env bytes = inr members
          ∧ fs w' = fold_left (extract_member dir) members (fs w)
  end.
Proof.
  cbn zeta. unfold extract_one, extractall, extract_error. wsimpl.
  destruct (fs w !! zp) as [[|bytes]|] eqn:Hz; wsimpl; [done| |done].
  destruct (zip_read env bytes) as [exn|members] eqn:Hr; wsimpl; [done|].
  pose proof (extract_members_ok dir members (fs w)) as Hok.
  destruct (extract_members dir members (fs w)) as [t' [exn|]]; wsimpl; [done|].
  split; [done|]. exists bytes, members.
  split; [done|]. split; [done|]. by apply Hok.
Qed.

(** Once the members are written each of them is on the disk, and the
    last one, when it is a file, with its content, whatever was there. *)
Lemma extracted_members_on_disk (dir : Path)
    (members : list (string * string)) (t : FS) :
  let t' := fold_left (extract_member dir) members t in
  (∀ m, m ∈ members → path_exists t' (dir ++ member_parts m.1) = true)
  ∧ (∀ pre m, members = pre ++ [m] → Py.endswith m.1 "/" = false →
              t' !! (dir ++ member_parts m.1) = Some (File m.2)).
Proof.
  cbn zeta. split.
  - revert t. induction members as [|m0 ms IH]; intros t m Hm.
    { by apply elem_of_nil in Hm. }
    cbn [fold_left]. apply elem_of_cons in Hm as [->|Hm]; [|by apply IH].
    eapply path_exists_keeps; [apply keeps_fold_extract_member|].
    unfold extract_member. destruct (Py.endswith m0.1 "/").
    + apply mkdir_p_exists.
    + unfold write_file, path_exists. apply bool_decide_eq_true.
      right. right. rewrite lookup_insert_eq. eauto.
  - intros pre m -> Hfile. rewrite fold_left_app. cbn [fold_left].
    unfold extract_member. rewrite Hfile. unfold write_file.
    apply lookup_insert_eq.
Qed.

(** C10: the extraction phase has no resume check.  With a positive
    worker count and a raw subdirectory that is a literal name, when the
    scan of the output tree succeeds and every archive it finds has a
    third parent, the phase ends normally, and what it has done is
    [extract_one] on every archive found below a raw subdirectory that
    the year filter, if any bound is set, lets through, one after the
    other, each into its third parent, between the two messages of the
    phase; it has fetched nothing.  [extract_one] looks at nothing but
    the archive: when the extraction raises (the archive is missing or
    unreadable, or something on the disk bars a member) it leaves one
    record with the archive path in the failure log and an error message;
    otherwise it has written every member of the archive, the last one,
    when it is a file, with its content over whatever was there.  The
    last clause shows it on a disk where the extracted file of an earlier
    run is there, on one where the phase writes over a file it finds,
    and on one where a directory bars the member: there the archive goes
    to the failure log. *)
Theorem extract_only_extracts_every_archive (env : Env) (args : Args)
    (w : World) (zip_paths : list Path) :
  0 < extract_workers args →
  literal_name (RAW_SUBDIR args) = true →
  discover args (fs w) = inr zip_paths →
  Forall (λ zp, is_Some (PathLib.parents zp 2)) zip_paths →
  let r := main_extract_only env args w in
  let target (zp : Path) := take (length zp - 3) zp in
  (r.2 = ExitOk
   ∧ (∀ p, p ∈ zip_paths ↔
           is_Some (fs w !! p)
           ∧ glob_match (OUTPUT_ROOT args) (RAW_SUBDIR args) p = true
           ∧ (Py.truthy (year_from args) || Py.truthy (year_to args) = true
              → dir_year_ok args p = true))
   ∧ r.1 = log LogExtractionFinished
             (fold_left (λ w zp, extract_one env zp (target zp) w) zip_paths
                (log (LogStartExtraction (length zip_paths)
                        (extract_workers args) (extract_mode args)) w))
   ∧ unzips r.1 = unzips w ++ ((λ zp, (zp, target zp)) <$> zip_paths)
   ∧ requests r.1 = requests w)
  ∧ (∀ zp dir w0,
       let w' := extract_one env zp dir w0 in
       match extract_error env (fs w0) zp dir with
       | Some exn =>
           failures w' = failures w0 ++ [PathLib.render zp +:+ nl]
           ∧ logged w' = logged w0 ++ [LogExtractError exn zp]
       | None =>
           failures w' = failures w0
           ∧ ∃ bytes members,
               fs w0 !! zp = Some (File bytes)
               ∧ zip_read env bytes = inr members
               ∧ fs w' = fold_left (extract_member dir) members (fs w0)
               ∧ (∀ m, m ∈ members →
                       path_exists (fs w') (dir ++ member_parts m.1) = true)
               ∧ (∀ pre m, members = pre ++ [m] →
                           Py.endswith m.1 "/" = false →
                           fs w' !! (dir ++ member_parts m.1) = Some (File m.2))
       end)
  ∧ (path_exists Sample.disk_extracted ["data"; "2015"; "20150218230000.gkg.csv"]
     = true
     ∧ unzips (main_extract_only Sample.env Sample.args_extract_only
                 (Sample.start Sample.disk_extracted)).1
       = [(Sample.zip1, ["data"])]
     ∧ disk_stale !! ["data"; "20150218230000.gkg.csv"] = Some (File "old")
     ∧ fs (main_extract_only Sample.env Sample.args_extract_only
             (Sample.start disk_stale)).1
         !! ["data"; "20150218230000.gkg.csv"] = Some (File "rows")
     ∧ failures (main_extract_only Sample.env Sample.args_extract_only
                   (Sample.start disk_stale)).1 = []
     ∧ extract_error Sample.env disk_barred Sample.zip1 ["data"]
       = Some "IsADirectoryError"
     ∧ failures (main_extract_only Sample.env Sample.args_extract_only
                   (Sample.start disk_barred)).1
       = ["data/2015/rawdata/20150218230000.gkg.csv.zip" +:+ nl]
     ∧ fs (main_extract_only Sample.env Sample.args_extract_only
             (Sample.start disk_barred)).1
         !! ["data"; "20150218230000.gkg.csv"] = Some Dir).
Proof.
  intros Hworkers _ Hd Hall. cbn zeta. split; [|split; [|by vm_compute]].
  - unfold main_extract_only. rewrite Hd.
    destruct (Z.leb_spec (extract_workers args) 0); [lia|].
    pose proof (submit_extractions_unzips env zip_paths
      (log (LogStartExtraction (length zip_paths) (extract_workers args)
              (extract_mode args)) w) Hall) as Hs.
    cbn zeta in Hs. rewrite (submit_extractions_fold _ _ _ Hall) in Hs |- *.
    cbn [fst snd] in Hs |- *. destruct Hs as (_ & Hu & Hr).
    split; [done|]. split; [|split; [done|]].
    + intros p. unfold discover in Hd.
      destruct (Py.truthy (year_from args) || Py.truthy (year_to args)).
      * apply year_filter_kept in Hd.
        rewrite Hd, list_elem_of_filter, elem_of_rglob. intuition.
      * injection Hd as <-. rewrite elem_of_rglob. intuition discriminate.
    + wsimpl. by rewrite Hu, Hr.
  - intros zp dir w0. cbn zeta.
    pose proof (extract_one_effect env zp dir w0) as He. cbn zeta in He.
    destruct (extract_error env (fs w0) zp dir); [exact He|].
    destruct He as (Hf & bytes & members & Hz & Hr & Hfs).
    split; [exact Hf|]. exists bytes, members.
    split; [done|]. split; [done|]. split; [done|]. rewrite Hfs.
    apply (extracted_members_on_disk dir members (fs w0)).
Qed.

Lemma extract_only_extracts_every_archive_witness :
  let w := Sample.start disk_stale in
  let r := main_extract_only Sample.env Sample.args_extract_only w in
  r.2 = ExitOk
  ∧ r.1 = log LogExtractionFinished
            (extract_one Sample.env Sample.zip1 ["data"]
               (log (LogStartExtraction 1 2 ModeProcess) w))
  ∧ unzips r.1 = [(Sample.zip1, ["data"])]
  ∧ requests r.1 = [].
Proof.
  destruct (extract_only_extracts_every_archive Sample.env
              Sample.args_extract_only (Sample.start disk_stale)
              [Sample.zip1])
    as [(Hok & _ & Hw & Hu & Hr) _].
  - reflexivity.
  - by vm_compute.
  - by vm_compute.
  - repeat constructor. by eexists.
  - split; [exact Hok|]. split; [exact Hw|]. split; [exact Hu|exact Hr].
Defined.

(** ** Records, sleeps and extractions of one task *)

Lemma finish_task_failures env args task w :
  let r := finish_task env args task w in
  failures r.1 = failures w ++ failure_record args task r.2.
Proof.
  unfold finish_task. destruct (skip_extract args); wsimpl.
  { by rewrite app_nil_r. }
  pose proof (extractall_trace env (zip_path_of args task)
                (year_dir_of args task.2) w) as Ht.
  cbn zeta in Ht.
  destruct (extractall _ _ _ _) as [w' [exn|]]; wsimpl;
    destruct Ht as (-> & _); [done|by rewrite app_nil_r].
Qed.

Lemma download_task_failures env args task w :
  let r := download_task env args task w in
  failures r.1 = failures w ++ failure_record args task r.2.
Proof.
  cbn zeta. rewrite download_task_eq. cbn zeta.
  destruct (csv_exists args task w); [wsimpl; by rewrite app_nil_r|].
  destruct (zip_exists args task w); cbn [negb fst snd].
  - apply (finish_task_failures env args task
             (pbar_bytes_update task.1.1
                (with_fs (mkdir_p (raw_dir_of args task.2)) w))).
  - pose proof (retry_loop_inv env args task.1.2 (zip_path_of args task)
      (Z.to_nat (retries args)) 1
      (with_fs (mkdir_p (raw_dir_of args task.2)) w)) as Hl.
    cbn zeta in Hl.
    destruct (retry_loop _ _ _ _ _ _ _) as [w2 ret]. wsimpl.
    destruct Hl as (_ & _ & _ & Hm).
    destruct ret as [e|].
    + wsimpl. destruct e; try done; rewrite Hm; cbn; by rewrite ?app_nil_r.
    + rewrite finish_task_failures. by rewrite Hm.
Qed.

(** X4: a task writes at most one record to the failure log, and which
    one is settled by the disk it finds and the answers of the server
    ([expected_exit]): its url when every one of the attempts allowed
    raises, the path of the archive when the extraction raises (the
    archive is missing or unreadable, or something on the disk bars a
    member), and nothing in every other case: the resume check, a 404
    answer, a download that is not to be extracted, an extraction that
    raises nothing. *)
Theorem one_failure_record_at_most (env : Env) (args : Args) (task : Task)
    (w : World) :
  let r := download_task env args task w in
  failures r.1 = failures w ++
    match expected_exit env args task w with
    | RetriesExhausted => [task.1.2 +:+ nl]
    | ExtractFailed _ => [PathLib.render (zip_path_of args task) +:+ nl]
    | SkippedExtracted | NotFound | DownloadedOnly | Extracted => []
    end.
Proof.
  cbn zeta. rewrite <- download_task_exit.
  apply (download_task_failures env args task w).
Qed.

(** While the loop counts its attempts up to [args.retries], it sleeps
    after every attempt but the last one it makes. *)
Lemma retry_loop_sleeps env args url zip_path (n : nat) (attempt : Z)
    (w : World) :
  attempt + Z.of_nat n = retries args + 1 →
  let r := retry_loop env args url zip_path n attempt w in
  ∃ k, (k ≤ n)%nat ∧ ((0 < n)%nat → (0 < k)%nat)
       ∧ requests r.1 = requests w ++ replicate k url
       ∧ sleeps r.1 = sleeps w ++ backoff attempt (k - 1).
Proof.
  revert attempt w. induction n as [|n IH]; intros attempt w Hinv; cbn zeta.
  - exists 0%nat. cbn. rewrite !app_nil_r. split; [lia|]. split; [lia|done].
  - destruct (http_get env (length (requests w)) url) as [|chunks|exn written] eqn:Hg.
    + rewrite (retry_loop_404 _ _ _ _ _ _ _ Hg). wsimpl.
      exists 1%nat. cbn. rewrite app_nil_r. split; [lia|]. split; [lia|done].
    + rewrite (retry_loop_ok _ _ _ _ _ _ _ _ Hg). cbn [fst].
      destruct (trace_eq _ _ (stream_to_trace zip_path chunks (note_request url w)))
        as (_ & -> & -> & _). wsimpl.
      exists 1%nat. cbn. rewrite app_nil_r. split; [lia|]. split; [lia|done].
    + rewrite (retry_loop_err _ _ _ _ _ _ _ _ _ Hg). cbn zeta.
      destruct (trace_eq _ _ (after_attempt_trace zip_path written (note_request url w)))
        as (_ & Hr & Hs & _).
      destruct (Z.eqb_spec attempt (retries args)) as [Heq|Hne].
      * wsimpl. rewrite Hr, Hs. wsimpl.
        exists 1%nat. cbn. rewrite app_nil_r. split; [lia|]. split; [lia|done].
      * specialize (IH (attempt + 1)
          (time_sleep (2 ^ attempt)
             (after_attempt zip_path written (note_request url w)))
          ltac:(lia)).
        cbn zeta in IH. destruct IH as (k & Hk & Hpos & Hr' & Hs').
        wsimpl. rewrite Hr, Hs in *. wsimpl.
        exists (S k). split; [lia|]. split; [lia|].
        rewrite Hr', Hs', <- !app_assoc. split; [done|].
        destruct k as [|k]; [lia|].
        replace (S (S k) - 1)%nat with (S k) by lia.
        replace (S k - 1)%nat with k by lia. done.
Qed.

(** X5: whatever the server answers and however the task ends, it
    sleeps only between two attempts: after [k] fetches of its url it has
    slept [k - 1] times, for 2, 4, ..., [2 ^ (k - 1)] seconds, and [k] is
    at most the retry limit. *)
Theorem sleeps_between_attempts_only (env : Env) (args : Args) (task : Task)
    (w : World) :
  let r := download_task env args task w in
  ∃ k, (k ≤ Z.to_nat (retries args))%nat
       ∧ requests r.1 = requests w ++ replicate k task.1.2
       ∧ sleeps r.1
         = sleeps w ++ ((λ a : nat, 2 ^ Z.of_nat a) <$> seq 1 (k - 1)).
Proof.
  cbn zeta. rewrite download_task_eq. cbn zeta.
  set (w1 := with_fs (mkdir_p (raw_dir_of args task.2)) w).
  assert (∀ w2, requests w2 = requests w → sleeps w2 = sleeps w →
    ∃ k, (k ≤ Z.to_nat (retries args))%nat
         ∧ requests w2 = requests w ++ replicate k task.1.2
         ∧ sleeps w2 = sleeps w ++ ((λ a : nat, 2 ^ Z.of_nat a) <$> seq 1 (k - 1)))
    as Hnone.
  { intros w2 -> ->. exists 0%nat. cbn. rewrite !app_nil_r.
    split; [lia|done]. }
  destruct (csv_exists args task w); [by apply Hnone|].
  destruct (zip_exists args task w); cbn [negb fst snd].
  - pose proof (finish_task_trace env args task
                  (pbar_bytes_update task.1.1 w1)) as Hf.
    cbn zeta in Hf. destruct Hf as (Hr & Hs & _). by apply Hnone.
  - destruct (Z.le_gt_cases (retries args) 0) as [Hle|Hgt].
    + replace (Z.to_nat (retries args)) with 0%nat by lia.
      cbn [retry_loop fst snd].
      pose proof (finish_task_trace env args task w1) as Hf.
      cbn zeta in Hf. destruct Hf as (Hr & Hs & _).
      exists 0%nat. cbn. rewrite !app_nil_r. split; [lia|]. by rewrite Hr, Hs.
    + pose proof (retry_loop_sleeps env args task.1.2 (zip_path_of args task)
        (Z.to_nat (retries args)) 1 w1 ltac:(lia)) as Hl.
      cbn zeta in Hl. destruct Hl as (k & Hk & _ & Hr & Hs).
      change 1 with (Z.of_nat 1) in Hs. rewrite backoff_seq in Hs.
      exists k. split; [done|].
      destruct (retry_loop _ _ _ _ _ _ _) as [w2 [e|]]; cbn [fst snd] in *.
      * done.
      * pose proof (finish_task_trace env args task w2) as Hf.
        cbn zeta in Hf. destruct Hf as (-> & -> & _). done.
Qed.

(** X6: with a retry limit of zero or less the loop body never runs.  A
    task whose archive is missing then fetches nothing and goes on to the
    extraction, which fails on the missing file: the task ends with one
    failure record, the archive path, and the file bar advanced. *)
Theorem no_retries_no_fetch (env : Env) (args : Args) (task : Task)
    (w : World) :
  retries args ≤ 0 →
  csv_exists args task w = false →
  zip_exists args task w = false →
  skip_extract args = false →
  let r := download_task env args task w in
  r.2 = ExtractFailed "FileNotFoundError"
  ∧ requests r.1 = requests w
  ∧ failures r.1 = failures w ++ [PathLib.render (zip_path_of args task) +:+ nl]
  ∧ pbar_files r.1 = pbar_files w + 1.
Proof.
  intros HR Hcsv Hzip Hskip. cbn zeta.
  rewrite download_task_eq. cbn zeta. rewrite Hcsv, Hzip. cbn [negb].
  replace (Z.to_nat (retries args)) with 0%nat by lia.
  cbn [retry_loop fst snd].
  unfold finish_task, extractall. rewrite Hskip. wsimpl.
  unfold zip_exists, path_exists in Hzip.
  apply bool_decide_eq_false in Hzip.
  destruct (mkdir_p (raw_dir_of args task.2) (fs w) !! zip_path_of args task)
    as [x|] eqn:Hx.
  { exfalso. apply Hzip. right. right. eauto. }
  wsimpl. done.
Qed.

Lemma no_retries_no_fetch_witness :
  let r := download_task Sample.env args_no_retries Sample.task1
                         (Sample.start ∅) in
  r.2 = ExtractFailed "FileNotFoundError"
  ∧ requests r.1 = []
  ∧ failures r.1 = ["data/2015/rawdata/20150218230000.gkg.csv.zip" +:+ nl]
  ∧ pbar_files r.1 = 1.
Proof.
  cbn zeta.
  refine (no_retries_no_fetch Sample.env args_no_retries Sample.task1
            (Sample.start ∅) _ _ _ _).
  - vm_compute. discriminate.
  - vm_compute. reflexivity.
  - vm_compute. reflexivity.
  - reflexivity.
Defined.

(** ** What a run fetches and extracts *)

Lemma download_task_unzips_skip env args task w :
  skip_extract args = true →
  unzips (download_task env args task w).1 = unzips w.
Proof.
  intros Hskip. rewrite download_task_eq. cbn zeta.
  set (w1 := with_fs (mkdir_p (raw_dir_of args task.2)) w).
  destruct (csv_exists args task w); [done|].
  destruct (zip_exists args task w); cbn [negb fst snd].
  - pose proof (finish_task_trace env args task
                  (pbar_bytes_update task.1.1 w1)) as Hf.
    cbn zeta in Hf. destruct Hf as (_ & _ & _ & _ & ->).
    rewrite Hskip, app_nil_r. done.
  - pose proof (retry_loop_inv env args task.1.2 (zip_path_of args task)
                  (Z.to_nat (retries args)) 1 w1) as Hl.
    cbn zeta in Hl. destruct Hl as (Hu & _).
    destruct (retry_loop _ _ _ _ _ _ _) as [w2 [e|]]; cbn [fst snd] in *.
    + done.
    + pose proof (finish_task_trace env args task w2) as Hf.
      cbn zeta in Hf. destruct Hf as (_ & _ & _ & _ & ->).
      rewrite Hskip, app_nil_r. done.
Qed.

Lemma submit_downloads_unzips_skip env args tasks w :
  skip_extract args = true →
  unzips (submit_downloads env args tasks w).1 = unzips w.
Proof.
  intros Hskip. revert w. induction tasks as [|t tasks IH]; intros w; [done|].
  cbn [submit_downloads].
  pose proof (download_task_unzips_skip env args t w Hskip) as Ht.
  destruct (download_task env args t w) as [w1 e].
  specialize (IH w1).
  destruct (submit_downloads env args tasks w1) as [w2 es].
  cbn [fst] in *. congruence.
Qed.

(** X7: with [--skip-extract] no archive is ever opened: neither by one
    task, whatever is on the disk and whatever the server answers, nor by
    a whole run of the script. *)
Theorem skip_extract_never_extracts (env : Env) (args : Args) (w : World) :
  skip_extract args = true →
  (∀ task, unzips (download_task env args task w).1 = unzips w)
  ∧ unzips (script env args w).1 = unzips w.
Proof.
  intros Hskip. split.
  - intros task. by apply download_task_unzips_skip.
  - unfold script, main. rewrite Hskip. cbn [andb].
    destruct (extract_only args); [done|].
    unfold main_download.
    destruct (parse_masterfiles args (rnd env)) as [tasks total].
    destruct (workers args <=? 0); [done|]. wsimpl.
    by rewrite submit_downloads_unzips_skip.
Qed.

Lemma skip_extract_never_extracts_witness :
  unzips (script Sample.env
            (Sample.args_skip_extract [[Sample.line1; Sample.line2]])
            (Sample.start ∅)).1 = [].
Proof.
  apply (skip_extract_never_extracts Sample.env
           (Sample.args_skip_extract [[Sample.line1; Sample.line2]])
           (Sample.start ∅)).
  reflexivity.
Defined.

Lemma download_task_requests env args task w :
  ∃ k, requests (download_task env args task w).1
       = requests w ++ replicate k task.1.2.
Proof.
  rewrite download_task_eq. cbn zeta.
  set (w1 := with_fs (mkdir_p (raw_dir_of args task.2)) w).
  destruct (csv_exists args task w).
  { exists 0%nat. cbn. by rewrite app_nil_r. }
  destruct (zip_exists args task w); cbn [negb fst snd].
  - pose proof (finish_task_trace env args task
                  (pbar_bytes_update task.1.1 w1)) as Hf.
    cbn zeta in Hf. destruct Hf as (-> & _).
    exists 0%nat. cbn. by rewrite app_nil_r.
  - pose proof (retry_loop_inv env args task.1.2 (zip_path_of args task)
                  (Z.to_nat (retries args)) 1 w1) as Hl.
    cbn zeta in Hl. destruct Hl as (_ & _ & (k & _ & _ & Hr) & _).
    exists k.
    destruct (retry_loop _ _ _ _ _ _ _) as [w2 [e|]]; cbn [fst snd] in *.
    + done.
    + pose proof (finish_task_trace env args task w2) as Hf.
      cbn zeta in Hf. destruct Hf as (-> & _). done.
Qed.

Lemma submit_downloads_requests env args tasks w :
  ∃ new, requests (submit_downloads env args tasks w).1 = requests w ++ new
         ∧ ∀ u, u ∈ new → ∃ t, t ∈ tasks ∧ t.1.2 = u.
Proof.
  revert w. induction tasks as [|t tasks IH]; intros w.
  - exists []. cbn. rewrite app_nil_r. split; [done|]. by intros u ?%elem_of_nil.
  - cbn [submit_downloads].
    destruct (download_task_requests env args t w) as [k Hk].
    destruct (download_task env args t w) as [w1 e].
    destruct (IH w1) as (new & Hnew & Hin).
    destruct (submit_downloads env args tasks w1) as [w2 es].
    cbn [fst] in *.
    exists (replicate k t.1.2 ++ new). split.
    + rewrite Hnew, Hk, <- app_assoc. done.
    + intros u [Hu|Hu]%elem_of_app.
      * apply elem_of_replicate in Hu as [-> _]. exists t. split; [left|done].
      * destruct (Hin u Hu) as (t' & Ht' & <-). exists t'. split; [by right|done].
Qed.

Lemma submit_extractions_requests env zip_paths w :
  requests (submit_extractions env zip_paths w).1 = requests w.
Proof.
  revert w. induction zip_paths as [|zp zps IH]; intros w; [done|].
  cbn [submit_extractions].
  destruct (PathLib.parents zp 2) as [dir|]; [|done].
  rewrite IH. by destruct (extract_one_trace env zp dir w) as [_ ->].
Qed.

(** X8: a run only fetches what the manifest lists.  Every request of
    the script is for the url of an accepted manifest line, so for a url
    that ends in [.gkg.csv.zip]; and with [--extract-only] the run makes
    no request at all, however it ends. *)
Theorem only_manifest_urls_are_fetched (env : Env) (args : Args) (w : World) :
  ∃ new,
    requests (script env args w).1 = requests w ++ new
    ∧ (extract_only args = true → new = [])
    ∧ ∀ u, u ∈ new →
           Py.endswith u ".gkg.csv.zip" = true
           ∧ ∃ line n y, line ∈ concat (masterfiles args)
                         ∧ line_task args line = Some (n, u, y).
Proof.
  unfold script.
  destruct (skip_extract args && extract_only args).
  { exists []. cbn. rewrite app_nil_r. split; [done|]. split; [done|].
    by intros u ?%elem_of_nil. }
  unfold main. destruct (extract_only args).
  - exists []. rewrite app_nil_r. split; [|split; [done|by intros u ?%elem_of_nil]].
    unfold main_extract_only. wsimpl.
    destruct (discover _ _) as [exn|zip_paths]; [done|].
    destruct (extract_workers args <=? 0); [done|].
    pose proof (submit_extractions_requests env zip_paths
      (log (LogStartExtraction (length zip_paths) (extract_workers args)
              (extract_mode args))
         (with_fs (mkdir_p (OUTPUT_ROOT args)) w))) as Hs.
    destruct (submit_extractions env zip_paths _) as [w2 []]; exact Hs.
  - unfold main_download, parse_masterfiles.
    pose proof (read_masterfiles_tasks args) as Hread.
    destruct (read_masterfiles args) as [tasks0 total]. injection Hread as -> _.
    set (tasks := if shuffle args then _ else _).
    assert (tasks ≡ₚ omap (line_task args) (concat (masterfiles args))) as Hperm.
    { subst tasks. destruct (shuffle args); [apply random_shuffle_perm|done]. }
    assert (∀ u, (∃ t, t ∈ tasks ∧ t.1.2 = u) →
      Py.endswith u ".gkg.csv.zip" = true
      ∧ ∃ line n y, line ∈ concat (masterfiles args)
                    ∧ line_task args line = Some (n, u, y)) as Hurl.
    { intros u ([[n u'] y] & Ht & <-). rewrite Hperm in Ht.
      apply list_elem_of_omap in Ht as (line & Hline & Htask).
      split; [|by exists line, n, y].
      apply line_task_Some in Htask as (? & ? & _ & He & _). exact He. }
    destruct (workers args <=? 0).
    { exists []. wsimpl. rewrite app_nil_r. split; [done|]. split; [done|].
      by intros u ?%elem_of_nil. }
    destruct (submit_downloads_requests env args tasks
      (bars_start args (length tasks) total
         (with_fs (mkdir_p (OUTPUT_ROOT args)) w))) as (new & Hnew & Hin).
    exists new. wsimpl. split; [exact Hnew|]. split; [done|].
    intros u Hu. apply Hurl, Hin, Hu.
Qed.

(** ** Running a task again *)

Lemma retry_loop_none_archive env args url zip_path (n : nat) (attempt : Z)
    (w : World) :
  attempt + Z.of_nat n = retries args + 1 →
  (0 < n)%nat →
  (retry_loop env args url zip_path n attempt w).2 = None →
  is_Some (fs (retry_loop env args url zip_path n attempt w).1 !! zip_path).
Proof.
  revert attempt w. induction n as [|n IH]; intros attempt w Hinv Hn; [lia|].
  destruct (http_get env (length (requests w)) url) as [|chunks|exn written] eqn:Hg.
  - rewrite (retry_loop_404 _ _ _ _ _ _ _ Hg). discriminate.
  - rewrite (retry_loop_ok _ _ _ _ _ _ _ _ Hg). cbn [fst snd]. intros _.
    rewrite fs_stream_to, lookup_insert_eq. eauto.
  - rewrite (retry_loop_err _ _ _ _ _ _ _ _ _ Hg). cbn zeta.
    destruct (Z.eqb_spec attempt (retries args)) as [Heq|Hne]; [discriminate|].
    apply IH; lia.
Qed.

Lemma retry_loop_returns env args url zip_path n attempt w e :
  (retry_loop env args url zip_path n attempt w).2 = Some e →
  download_failed e = true.
Proof.
  intros He.
  pose proof (retry_loop_inv env args url zip_path n attempt w) as Hl.
  cbn zeta in Hl. destruct Hl as (_ & _ & _ & Hm). rewrite He in Hm.
  by destruct e.
Qed.

Lemma path_exists_lookup (t : FS) (p : Path) :
  is_Some (t !! p) → path_exists t p = true.
Proof. intros H. apply bool_decide_eq_true. auto. Qed.

(** After a task that did not fail in its download stage, and with a
    positive retry limit, the extracted file or the archive is there. *)
Lemma archive_after_download env args task w :
  0 < retries args →
  download_failed (download_task env args task w).2 = false →
  csv_exists args task (download_task env args task w).1 = true
  ∨ zip_exists args task (download_task env args task w).1 = true.
Proof.
  intros HR. rewrite download_task_eq. cbn zeta.
  set (w1 := with_fs (mkdir_p (raw_dir_of args task.2)) w).
  destruct (csv_exists args task w) eqn:Hcsv.
  { intros _. left. unfold csv_exists in *. wsimpl.
    eapply path_exists_keeps; [apply keeps_mkdir_p|exact Hcsv]. }
  destruct (zip_exists args task w) eqn:Hzip; cbn [negb fst snd].
  - intros _. right. unfold zip_exists in *.
    eapply path_exists_keeps; [|exact Hzip].
    eapply keeps_trans; [|apply keeps_mkdir_p].
    apply (keeps_finish_task env args task (pbar_bytes_update task.1.1 w1)).
  - pose proof (retry_loop_none_archive env args task.1.2 (zip_path_of args task)
                  (Z.to_nat (retries args)) 1 w1 ltac:(lia) ltac:(lia)) as Hnone.
    pose proof (retry_loop_returns env args task.1.2 (zip_path_of args task)
                  (Z.to_nat (retries args)) 1 w1) as Hret.
    destruct (retry_loop _ _ _ _ _ _ _) as [w2 [e|]]; cbn [fst snd] in *.
    + intros Hd. rewrite (Hret e eq_refl) in Hd. discriminate.
    + intros _. right. unfold zip_exists.
      eapply path_exists_keeps; [|apply path_exists_lookup, Hnone; done].
      eapply keeps_trans; [apply keeps_finish_task|apply keeps_mkdir_p].
Qed.

Lemma download_task_resumed env args task w :
  csv_exists args task w = true ∨ zip_exists args task w = true
  ∨ retries args ≤ 0 →
  requests (download_task env args task w).1 = requests w
  ∧ sleeps (download_task env args task w).1 = sleeps w.
Proof.
  intros Hcase. rewrite download_task_eq. cbn zeta.
  set (w1 := with_fs (mkdir_p (raw_dir_of args task.2)) w).
  destruct (csv_exists args task w); [done|].
  destruct (zip_exists args task w); cbn [negb fst snd].
  - pose proof (finish_task_trace env args task
                  (pbar_bytes_update task.1.1 w1)) as Hf.
    cbn zeta in Hf. by destruct Hf as (-> & -> & _).
  - destruct Hcase as [?|[?|HR]]; try discriminate.
    replace (Z.to_nat (retries args)) with 0%nat by lia.
    cbn [retry_loop fst snd].
    pose proof (finish_task_trace env args task w1) as Hf.
    cbn zeta in Hf. by destruct Hf as (-> & -> & _).
Qed.

(** X9: a download is not repeated.  When a task did not end on a 404
    answer or on exhausted retries, running it again, on the disk it
    left and against any server, fetches nothing and sleeps for
    nothing. *)
Theorem finished_download_is_not_repeated (env env' : Env) (args : Args)
    (task : Task) (w : World) :
  let r := download_task env args task w in
  download_failed r.2 = false →
  requests (download_task env' args task r.1).1 = requests r.1
  ∧ sleeps (download_task env' args task r.1).1 = sleeps r.1.
Proof.
  cbn zeta. intros Hd. apply download_task_resumed.
  destruct (Z.le_gt_cases (retries args) 0) as [Hle|Hgt]; [auto|].
  destruct (archive_after_download env args task w ltac:(lia) Hd); auto.
Qed.

Lemma finished_download_is_not_repeated_witness :
  let r := download_task Sample.env (Sample.args []) Sample.task1
                         (Sample.start ∅) in
  requests (download_task Sample.env_404 (Sample.args []) Sample.task1 r.1).1
  = requests r.1
  ∧ sleeps (download_task Sample.env_404 (Sample.args []) Sample.task1 r.1).1
    = sleeps r.1.
Proof.
  apply (finished_download_is_not_repeated Sample.env Sample.env_404
           (Sample.args []) Sample.task1 (Sample.start ∅)).
  vm_compute. reflexivity.
Defined.

(** X10: an archive that a failed download left half written is taken
    for a complete one.  When every attempt fails and the last one had
    already written chunks, the task gives up with these chunks at the
    archive path; a later run of the same task finds the file, fetches
    nothing, whatever the server would answer. *)
Theorem partial_archive_is_trusted (env : Env) (args : Args) (task : Task)
    (w : World) (exn : string) (chunks : list string) :
  1 ≤ retries args →
  csv_exists args task w = false →
  zip_exists args task w = false →
  (∀ j, (j < Z.to_nat (retries args))%nat →
        is_error (http_get env (length (requests w) + j) task.1.2) = true) →
  http_get env (length (requests w) + (Z.to_nat (retries args) - 1)) task.1.2
  = RespErr exn (Some chunks) →
  let r := download_task env args task w in
  r.2 = RetriesExhausted
  ∧ fs r.1 !! zip_path_of args task = Some (File (concat_chunks chunks))
  ∧ zip_exists args task r.1 = true
  ∧ ∀ env', requests (download_task env' args task r.1).1 = requests r.1.
Proof.
  intros HR Hcsv Hzip Herr Hlast. cbn zeta.
  assert ((download_task env args task w).2 = RetriesExhausted
          ∧ fs (download_task env args task w).1 !! zip_path_of args task
            = Some (File (concat_chunks chunks))) as [He Hfile].
  { rewrite download_task_eq. cbn zeta. rewrite Hcsv, Hzip. cbn [negb].
    set (w1 := with_fs (mkdir_p (raw_dir_of args task.2)) w).
    set (R := Z.to_nat (retries args)) in *.
    destruct (retry_loop_errors env args task.1.2 (zip_path_of args task)
                (R - 1) 1 1 w1)
      as (w' & Heq & Hr & _).
    { intros j Hj. apply Herr. lia. }
    { lia. }
    replace (R - 1 + 1)%nat with R in Heq by lia. rewrite Heq.
    rewrite (retry_loop_err _ _ _ _ _ _ _ exn (Some chunks)).
    2:{ rewrite Hr, length_app, length_replicate. exact Hlast. }
    cbn zeta.
    destruct (Z.eqb_spec (1 + Z.of_nat (R - 1)) (retries args)); [|lia].
    wsimpl. split; [done|].
    cbn [after_attempt]. rewrite fs_stream_to, lookup_insert_eq.
    by rewrite concat_chunks_filter. }
  assert (zip_exists args task (download_task env args task w).1 = true) as Hz.
  { unfold zip_exists.
    eapply path_exists_keeps; [apply keeps_mkdir_p|].
    apply path_exists_lookup. rewrite Hfile. eauto. }
  split; [exact He|]. split; [exact Hfile|]. split; [exact Hz|].
  intros env'. apply download_task_resumed. auto.
Qed.

Lemma partial_archive_is_trusted_witness :
  let r := download_task env_cut (Sample.args []) Sample.task1
                         (Sample.start ∅) in
  r.2 = RetriesExhausted
  ∧ fs r.1 !! Sample.zip1 = Some (File "PK:2015")
  ∧ zip_exists (Sample.args []) Sample.task1 r.1 = true
  ∧ ∀ env', requests (download_task env' (Sample.args []) Sample.task1 r.1).1
            = requests r.1.
Proof.
  refine (partial_archive_is_trusted env_cut (Sample.args []) Sample.task1
            (Sample.start ∅) "ChunkedEncodingError" ["PK:2015"] _ _ _ _ _).
  - vm_compute. discriminate.
  - vm_compute. reflexivity.
  - vm_compute. reflexivity.
  - intros j Hj. reflexivity.
  - reflexivity.
Defined.

(** ** What a download stores and counts *)

Lemma string_length_app (s1 s2 : string) :
  String.length (s1 +:+ s2) = (String.length s1 + String.length s2)%nat.
Proof.
  induction s1 as [|c s1 IH]; [reflexivity|].
  change (S (String.length (s1 +:+ s2))
          = S (String.length s1 + String.length s2)).
  by rewrite IH.
Qed.

Lemma pbar_bytes_fold (kept : list string) (w : World) :
  pbar_bytes (fold_left (λ w c, pbar_bytes_update (Z.of_nat (String.length c)) w)
                        kept w)
  = (λ b, b + Z.of_nat (String.length (concat_chunks kept))) <$> pbar_bytes w.
Proof.
  revert w. induction kept as [|c kept IH]; intros w.
  - cbn. destruct (pbar_bytes w); cbn; [f_equal; lia|done].
  - cbn [fold_left]. rewrite IH. wsimpl.
    unfold concat_chunks. cbn [foldr]. rewrite string_length_app.
    destruct (pbar_bytes w); cbn; [f_equal; lia|done].
Qed.

Lemma pbar_bytes_stream_to (zip_path : Path) (chunks : list string) (w : World) :
  pbar_bytes (stream_to zip_path chunks w)
  = (λ b, b + Z.of_nat (String.length (concat_chunks chunks))) <$> pbar_bytes w.
Proof.
  unfold stream_to. rewrite pbar_bytes_fold, concat_chunks_filter. done.
Qed.

Lemma finish_task_keeps_bytes env args task w :
  pbar_bytes (finish_task env args task w).1 = pbar_bytes w.
Proof.
  unfold finish_task. destruct (skip_extract args); wsimpl; [done|].
  assert (pbar_bytes (extractall env (zip_path_of args task)
                        (year_dir_of args task.2) w).1 = pbar_bytes w) as Hb.
  { unfold extractall. wsimpl.
    destruct (fs w !! zip_path_of args task) as [[|bytes]|]; wsimpl; try done.
    destruct (zip_read env bytes); wsimpl; done. }
  destruct (extractall _ _ _ _) as [w' [exn|]]; wsimpl; exact Hb.
Qed.

(** X11: a fetch that succeeds at once is stored and counted as it
    came.  The task makes that one request, and the byte bar, if there is
    one, advances by the length of the body; with [--skip-extract] the
    task ends there, and the archive on disk is the body, its chunks
    joined in order. *)
Theorem first_fetch_is_stored (env : Env) (args : Args) (task : Task)
    (w : World) (chunks : list string) :
  1 ≤ retries args →
  csv_exists args task w = false →
  zip_exists args task w = false →
  http_get env (length (requests w)) task.1.2 = RespOk chunks →
  let r := download_task env args task w in
  download_failed r.2 = false
  ∧ requests r.1 = requests w ++ [task.1.2]
  ∧ sleeps r.1 = sleeps w
  ∧ pbar_bytes r.1
    = (λ b, b + Z.of_nat (String.length (concat_chunks chunks))) <$> pbar_bytes w
  ∧ (skip_extract args = true →
     r.2 = DownloadedOnly
     ∧ fs r.1 !! zip_path_of args task = Some (File (concat_chunks chunks))).
Proof.
  intros HR Hcsv Hzip Hok. cbn zeta.
  rewrite download_task_eq. cbn zeta. rewrite Hcsv, Hzip. cbn [negb].
  set (w1 := with_fs (mkdir_p (raw_dir_of args task.2)) w).
  destruct (Z.to_nat (retries args)) as [|m] eqn:Hm; [lia|].
  rewrite (retry_loop_ok _ _ _ _ _ _ _ chunks) by exact Hok.
  cbn [fst snd].
  set (w2 := stream_to (zip_path_of args task) chunks (note_request task.1.2 w1)).
  pose proof (finish_task_trace env args task w2) as Hf. cbn zeta in Hf.
  destruct Hf as (-> & -> & _ & -> & _).
  rewrite finish_task_keeps_bytes.
  destruct (trace_eq _ _ (stream_to_trace (zip_path_of args task) chunks
                            (note_request task.1.2 w1)))
    as (_ & Hr & Hs & _).
  fold w2 in Hr, Hs. rewrite Hr, Hs.
  subst w2. rewrite pbar_bytes_stream_to. subst w1. wsimpl.
  split; [done|]. split; [done|]. split; [done|]. split; [done|].
  intros Hskip. unfold finish_task. rewrite Hskip. wsimpl.
  split; [done|].
  rewrite fs_stream_to, lookup_insert_eq. by rewrite concat_chunks_filter.
Qed.

Lemma first_fetch_is_stored_witness :
  let a := Sample.args_skip_extract [] in
  let r := download_task Sample.env a Sample.task1 (start_with_byte_bar ∅) in
  download_failed r.2 = false
  ∧ requests r.1 = [Sample.url1]
  ∧ sleeps r.1 = []
  ∧ pbar_bytes r.1 = Some 25
  ∧ (skip_extract a = true →
     r.2 = DownloadedOnly
     ∧ fs r.1 !! Sample.zip1 = Some (File "PK:20150218230000.gkg.csv")).
Proof.
  refine (first_fetch_is_stored Sample.env (Sample.args_skip_extract [])
            Sample.task1 (start_with_byte_bar ∅)
            ["PK:20150218230000.gkg.csv"] _ _ _ _).
  - vm_compute. discriminate.
  - vm_compute. reflexivity.
  - vm_compute. reflexivity.
  - reflexivity.
Defined.

(** ** The manifest, further *)

Lemma sizes_perm (ts us : list Task) : ts ≡ₚ us → sizes ts = sizes us.
Proof.
  induction 1 as [|t ts us _ IH|t u ts|ts us vs _ IH1 _ IH2]; cbn [sizes foldr] in *.
  - done.
  - unfold sizes in IH. lia.
  - lia.
  - congruence.
Qed.

(** X12: the total that [parse_masterfiles] returns is the sum of the
    sizes of the tasks it returns, with and without shuffling. *)
Theorem total_bytes_is_sum_of_sizes (args : Args) (rnd : nat → nat) :
  (parse_masterfiles args rnd).2
  = foldr (λ t s, t.1.1 + s) 0 (parse_masterfiles args rnd).1.
Proof.
  change (foldr (λ t s, t.1.1 + s) 0 (parse_masterfiles args rnd).1)
    with (sizes (parse_masterfiles args rnd).1).
  unfold parse_masterfiles.
  pose proof (read_masterfiles_tasks args) as Hread.
  destruct (read_masterfiles args) as [tasks total].
  injection Hread as -> ->. cbn [fst snd].
  destruct (shuffle args); [|done].
  symmetry. apply sizes_perm, random_shuffle_perm.
Qed.

(** X13: manifests add up.  Reading several manifests gives the tasks
    of the first ones followed by the tasks of the later ones, and the sum
    of their totals; how the lines are spread over the files makes no
    difference, and nothing is merged: a line listed twice gives its task
    twice. *)
Theorem manifests_add_up (args : Args) (ms1 ms2 : list (list string)) :
  let read ms := read_masterfiles (with_masterfiles ms args) in
  read (ms1 ++ ms2) = ((read ms1).1 ++ (read ms2).1, (read ms1).2 + (read ms2).2)
  ∧ read (ms1 ++ ms2) = read [concat ms1 ++ concat ms2]
  ∧ length (read (ms1 ++ ms1)).1 = (2 * length (read ms1).1)%nat.
Proof.
  intros read. subst read. cbn beta.
  rewrite !read_masterfiles_tasks. cbn [masterfiles with_masterfiles fst snd].
  repeat match goal with
         | |- context [line_task (with_masterfiles ?ms args)] =>
             change (line_task (with_masterfiles ms args)) with (line_task args)
         end.
  rewrite !concat_app, !omap_app, !sizes_app.
  split; [done|]. split.
  - cbn [concat]. rewrite app_nil_r, omap_app, sizes_app. done.
  - rewrite length_app. lia.
Qed.

(** X14: every task that [parse_masterfiles] returns is well formed:
    its url ends in [.gkg.csv.zip], its year is the one the url carries
    ([year_of_url]: the integer that [int] reads from the first four
    characters, or fewer when there are fewer, of the part of the file
    name before its first dot), and this year passes the year filter. *)
Theorem tasks_are_well_formed (args : Args) (rnd : nat → nat) (t : Task) :
  t ∈ (parse_masterfiles args rnd).1 →
  Py.endswith t.1.2 ".gkg.csv.zip" = true
  ∧ year_of_url t.1.2 = Some t.2
  ∧ year_in_range (year_from args) (year_to args) t.2 = true.
Proof.
  unfold parse_masterfiles.
  pose proof (read_masterfiles_tasks args) as Hread.
  destruct (read_masterfiles args) as [tasks total].
  injection Hread as -> _. cbn [fst].
  intros Ht.
  assert (t ∈ omap (line_task args) (concat (masterfiles args))) as Hin.
  { destruct (shuffle args); [|done]. by rewrite random_shuffle_perm in Ht. }
  apply list_elem_of_omap in Hin as (line & _ & Htask).
  destruct t as [[n u] y].
  apply line_task_Some in Htask as (? & ? & _ & He & _ & Hy & Hr). done.
Qed.

Lemma tasks_are_well_formed_witness :
  Py.endswith Sample.url1 ".gkg.csv.zip" = true
  ∧ year_of_url Sample.url1 = Some 2015
  ∧ year_in_range None None 2015 = true.
Proof.
  apply (tasks_are_well_formed (Sample.args [[Sample.line1]]) (λ _, 0%nat)
           Sample.task1).
  vm_compute. left.
Defined.

(** ** The year filter of the extraction phase *)

Lemma year_tests_agree (yf yt : option Z) (y : Z) :
  0 ≤ y ≤ 9999 →
  (Py.or_default yf 0 <=? y) && (y <=? Py.or_default yt 9999)
  = year_in_range yf yt y.
Proof.
  intros Hy. unfold year_in_range, Py.or_default.
  destruct yf as [a|], yt as [b|];
    repeat match goal with
           | |- context [?x =? ?y] => destruct (Z.eqb_spec x y)
           | |- context [?x <=? ?y] => destruct (Z.leb_spec x y)
           end; cbn; try reflexivity; lia.
Qed.

(** X15: the two year filters agree.  On archives that lie below
    directories named after years from 0 to 9999, the comprehension of
    the extraction phase raises nothing and keeps exactly the archives
    whose year passes the test that [parse_masterfiles] applies to
    tasks. *)
Theorem extraction_filter_agrees_with_download_filter (args : Args)
    (zip_paths : list Path) :
  Forall (λ p, ∃ y, dir_year p = Some y ∧ 0 ≤ y ≤ 9999) zip_paths →
  year_filter args zip_paths
  = inr (filter (λ p, dir_year_in_range args p = true) zip_paths).
Proof.
  induction 1 as [|p ps (y & Hy & Hrange) _ IH]; [reflexivity|].
  cbn [year_filter]. rewrite IH, filter_cons.
  unfold dir_year_in_range. rewrite Hy.
  unfold dir_year in Hy.
  destruct (PathLib.part_from_end p 3) as [d|]; [|discriminate].
  cbn in Hy. rewrite Hy.
  rewrite (year_tests_agree _ _ _ Hrange).
  destruct (year_in_range _ _ y);
    [by rewrite decide_True|by rewrite decide_False].
Qed.

Lemma extraction_filter_agrees_with_download_filter_witness :
  year_filter args_extract_from_2015 [Sample.zip1]
  = inr (filter (λ p, dir_year_in_range args_extract_from_2015 p = true)
           [Sample.zip1]).
Proof.
  apply (extraction_filter_agrees_with_download_filter args_extract_from_2015
           [Sample.zip1]).
  repeat constructor. exists 2015. split; [by vm_compute|lia].
Defined.

Lemma year_filter_raises (args : Args) (zip_paths : list Path) (p : Path) :
  p ∈ zip_paths → dir_year p = None → ∃ exn, year_filter args zip_paths = inl exn.
Proof.
  intros Hin Hp. induction zip_paths as [|q ps IH]; [by apply elem_of_nil in Hin|].
  cbn [year_filter].
  destruct (PathLib.part_from_end q 3) as [d|] eqn:Hd; [|eauto].
  destruct (Py.int d) as [y|] eqn:Hy; [|eauto].
  apply elem_of_cons in Hin as [->|Hin].
  { unfold dir_year in Hp. rewrite Hd in Hp. cbn in Hp. congruence. }
  destruct (IH Hin) as [exn ->]. eauto.
Qed.

(** X16: with a year bound set, one archive below a directory whose
    name is not an integer stops the extraction phase before it starts:
    the comprehension raises, nothing is extracted, logged or recorded,
    and the exception is not caught. *)
Theorem odd_directory_stops_extraction (env : Env) (args : Args) (w : World)
    (p : Path) :
  Py.truthy (year_from args) || Py.truthy (year_to args) = true →
  p ∈ rglob (OUTPUT_ROOT args) (RAW_SUBDIR args) (fs w) →
  dir_year p = None →
  ∃ exn, main_extract_only env args w = (w, Uncaught exn).
Proof.
  intros Hbound Hin Hp. unfold main_extract_only, discover. rewrite Hbound.
  destruct (year_filter_raises args _ p Hin Hp) as [exn ->]. eauto.
Qed.

Lemma odd_directory_stops_extraction_witness :
  ∃ exn, main_extract_only Sample.env args_extract_from_2015
           (Sample.start disk_latest)
         = (Sample.start disk_latest, Uncaught exn).
Proof.
  apply (odd_directory_stops_extraction Sample.env args_extract_from_2015
           (Sample.start disk_latest) zip_latest).
  - reflexivity.
  - apply elem_of_rglob. split; [by vm_compute; eauto|by vm_compute].
  - by vm_compute.
Defined.

(** ** File names and paths of a task *)

Lemma app_cons (c : ascii) (a b : string) :
  String c a +:+ b = String c (a +:+ b).
Proof. reflexivity. Qed.

Lemma string_app_assoc (a b c : string) : (a +:+ b) +:+ c = a +:+ (b +:+ c).
Proof.
  induction a as [|d a IH]; [reflexivity|]. rewrite !app_cons. by rewrite IH.
Qed.

Lemma string_app_nil_r (a : string) : a +:+ "" = a.
Proof. induction a as [|d a IH]; [reflexivity|]. rewrite app_cons. by rewrite IH. Qed.

Lemma snoc_app (cur : string) (c : ascii) (s : string) :
  Py.snoc cur c +:+ s = cur +:+ String c s.
Proof. unfold Py.snoc. by rewrite string_app_assoc. Qed.

Lemma contains_app (c : ascii) (a b : string) :
  contains c (a +:+ b) = contains c a || contains c b.
Proof.
  induction a as [|d a IH]; [reflexivity|].
  rewrite app_cons. cbn [contains]. rewrite IH. by rewrite orb_assoc.
Qed.

Lemma substring_prefix (a b : string) :
  String.substring 0 (String.length a) (a +:+ b) = a.
Proof.
  induction a as [|d a IH]; [by destruct b|].
  rewrite app_cons. cbn [String.length String.substring]. by rewrite IH.
Qed.

Lemma substring_whole (a : string) :
  String.substring 0 (String.length a) a = a.
Proof. rewrite <- (string_app_nil_r a) at 2. apply substring_prefix. Qed.

Lemma substring_suffix (a b : string) :
  String.substring (String.length a) (String.length b) (a +:+ b) = b.
Proof.
  induction a as [|d a IH]; [apply substring_whole|].
  rewrite app_cons. cbn [String.length String.substring]. exact IH.
Qed.

Lemma substring_split (n : nat) (s : string) :
  (n ≤ String.length s)%nat →
  s = String.substring 0 n s
      +:+ String.substring n (String.length s - n) s.
Proof.
  revert n. induction s as [|d s IH]; intros n Hn.
  - cbn in Hn. by replace n with 0%nat by lia.
  - destruct n as [|n].
    + cbn [String.substring String.length Nat.sub].
      change ("" +:+ String d (String.substring 0 (String.length s) s))
        with (String d (String.substring 0 (String.length s) s)).
      by rewrite substring_whole.
    + cbn [String.length] in *. cbn [String.substring Nat.sub].
      rewrite app_cons. f_equal. apply IH. lia.
Qed.

(** [endswith] holds exactly of the strings that are something followed
    by the suffix. *)
Lemma endswith_iff (s suffix : string) :
  Py.endswith s suffix = true ↔ ∃ a, s = a +:+ suffix.
Proof.
  unfold Py.endswith. rewrite andb_true_iff, !bool_decide_eq_true. split.
  - intros [Hle Hsub].
    exists (String.substring 0 (String.length s - String.length suffix) s).
    pose proof (substring_split (String.length s - String.length suffix) s
                  ltac:(lia)) as Hsplit.
    replace (String.length s - (String.length s - String.length suffix))%nat
      with (String.length suffix) in Hsplit by lia.
    by rewrite Hsub in Hsplit.
  - intros [a ->]. rewrite string_length_app. split; [lia|].
    replace (String.length a + String.length suffix - String.length suffix)%nat
      with (String.length a) by lia.
    apply substring_suffix.
Qed.

Lemma split_on_go_plain (sep : ascii) (cur s : string) :
  contains sep s = false → Py.split_on_go sep cur s = [cur +:+ s].
Proof.
  revert cur. induction s as [|c s IH]; intros cur Hs.
  - cbn. by rewrite string_app_nil_r.
  - cbn [contains] in Hs. apply orb_false_iff in Hs as [Hc Hs].
    apply bool_decide_eq_false in Hc.
    cbn [Py.split_on_go]. rewrite decide_False by done.
    rewrite (IH _ Hs). by rewrite snoc_app.
Qed.

(** The last piece of a string that ends with a suffix free of the
    separator ends with that suffix, and holds no separator. *)
Lemma split_on_go_last (sep : ascii) (a suffix cur : string) :
  contains sep suffix = false →
  contains sep cur = false →
  ∃ x, last (Py.split_on_go sep cur (a +:+ suffix)) = Some (x +:+ suffix)
       ∧ contains sep x = false.
Proof.
  intros Hsuf. revert cur. induction a as [|c a IH]; intros cur Hcur.
  - exists cur. change ("" +:+ suffix) with suffix.
    by rewrite (split_on_go_plain _ _ _ Hsuf).
  - rewrite app_cons. cbn [Py.split_on_go].
    destruct (decide (c = sep)) as [->|Hc].
    + destruct (IH "" eq_refl) as (x & Hx & Hnx).
      exists x. rewrite last_cons, Hx. done.
    + apply IH. unfold Py.snoc. rewrite contains_app, Hcur. cbn.
      rewrite bool_decide_eq_false_2 by done. done.
Qed.

Lemma last_filter {A} (P : A → Prop) `{!∀ x, Decision (P x)} (l : list A) (z : A) :
  last l = Some z → P z → last (filter P l) = Some z.
Proof.
  intros [l' ->]%last_Some Hz.
  rewrite filter_app, filter_cons, decide_True by done.
  rewrite filter_nil. apply last_snoc.
Qed.

(** The file name of a url that ends with a slash-free suffix of two
    characters or more: it ends with the suffix and holds no slash. *)
Lemma fname_of_suffix (url suffix : string) :
  contains "/" suffix = false →
  (2 ≤ String.length suffix)%nat →
  Py.endswith url suffix = true →
  ∃ x, fname_of url = x +:+ suffix ∧ contains "/" x = false.
Proof.
  intros Hsuf Hlen [a ->]%endswith_iff.
  destruct (split_on_go_last "/" a suffix "" Hsuf eq_refl) as (x & Hx & Hnx).
  exists x. split; [|done].
  assert (String.length (x +:+ suffix) ≥ 2)%nat as Hl
    by (rewrite string_length_app; lia).
  assert (last (PathLib.segments (a +:+ suffix)) = Some (x +:+ suffix)) as Hseg.
  { unfold PathLib.segments, Py.split_on. apply last_filter; [done|].
    split; intros Heq; rewrite Heq in Hl; cbn in Hl; lia. }
  assert (last (PathLib.of_string (a +:+ suffix)) = Some (x +:+ suffix)) as Hlast.
  { unfold PathLib.of_string.
    destruct (a +:+ suffix) as [|c s] eqn:Hs; [done|].
    destruct (Ascii.ascii_dec c "/") as [->|Hc].
    - rewrite last_cons, Hseg. done.
    - destruct c as [[] [] [] [] [] [] [] []]; try exact Hseg; done. }
  unfold fname_of, PathLib.name. rewrite Hlast.
  destruct (bool_decide (x +:+ suffix = "/")) eqn:Hroot; [|done].
  apply bool_decide_eq_true in Hroot. rewrite Hroot in Hl. cbn in Hl. lia.
Qed.

Lemma segments_plain (s : string) :
  contains "/" s = false → (2 ≤ String.length s)%nat → PathLib.segments s = [s].
Proof.
  intros Hs Hl. unfold PathLib.segments, Py.split_on.
  rewrite (split_on_go_plain _ _ _ Hs). change ("" +:+ s) with s.
  rewrite filter_cons, decide_True; [done|].
  split; intros ->; cbn in Hl; lia.
Qed.

Lemma joinpath_plain (p : Path) (s : string) :
  contains "/" s = false → (2 ≤ String.length s)%nat →
  PathLib.joinpath p s = p ++ [s].
Proof.
  intros Hs Hl. pose proof (segments_plain s Hs Hl) as Hseg.
  destruct s as [|c s]; [cbn in Hl; lia|].
  cbn [contains] in Hs. apply orb_false_iff in Hs as [Hc _].
  apply bool_decide_eq_false in Hc.
  unfold PathLib.joinpath.
  destruct c as [[] [] [] [] [] [] [] []]; try (by rewrite Hseg); done.
Qed.

Lemma task_paths_stem (args : Args) (task : Task) :
  Py.endswith task.1.2 ".gkg.csv.zip" = true →
  ∃ stem,
    contains "/" stem = false
    ∧ fname_of task.1.2 = stem +:+ ".gkg.csv.zip"
    ∧ zip_path_of args task
      = raw_dir_of args task.2 ++ [stem +:+ ".gkg.csv.zip"].
Proof.
  intros Hurl.
  destruct (fname_of_suffix task.1.2 ".gkg.csv.zip" eq_refl ltac:(cbn; lia) Hurl)
    as (stem & Hname & Hstem).
  exists stem. split; [done|]. split; [done|].
  unfold zip_path_of. rewrite Hname. apply joinpath_plain.
  - by rewrite contains_app, Hstem.
  - rewrite string_length_app. cbn. lia.
Qed.

(** X17: where a task of the manifest lives on disk.  For a url that
    ends in [.gkg.csv.zip], the archive is stored in the raw directory
    under the last segment of the url, and the file whose presence skips
    the task is looked up in the year directory under that name without
    its [.zip]. *)
Theorem task_paths (args : Args) (task : Task) :
  Py.endswith task.1.2 ".gkg.csv.zip" = true →
  ∃ stem,
    contains "/" stem = false
    ∧ fname_of task.1.2 = stem +:+ ".gkg.csv.zip"
    ∧ zip_path_of args task
      = raw_dir_of args task.2 ++ [stem +:+ ".gkg.csv.zip"]
    ∧ csv_path_of args task
      = year_dir_of args task.2 ++ [stem +:+ ".gkg.csv"].
Proof.
  intros Hurl.
  destruct (fname_of_suffix task.1.2 ".gkg.csv.zip" eq_refl ltac:(cbn; lia) Hurl)
    as (stem & Hname & Hstem).
  exists stem. split; [done|]. split; [done|].
  unfold zip_path_of, csv_path_of. rewrite Hname. split.
  - apply joinpath_plain.
    + by rewrite contains_app, Hstem.
    + rewrite string_length_app. cbn. lia.
  - assert (Py.slice_drop_last 4 (stem +:+ ".gkg.csv.zip") = stem +:+ ".gkg.csv")
      as ->.
    { unfold Py.slice_drop_last.
      change (stem +:+ ".gkg.csv.zip") with (stem +:+ (".gkg.csv" +:+ ".zip")).
      rewrite <- string_app_assoc, string_length_app.
      replace (String.length (stem +:+ ".gkg.csv") + String.length ".zip" - 4)%nat
        with (String.length (stem +:+ ".gkg.csv")) by (cbn; lia).
      apply substring_prefix. }
    apply joinpath_plain.
    + by rewrite contains_app, Hstem.
    + rewrite string_length_app. cbn. lia.
Qed.

Lemma task_paths_witness :
  ∃ stem,
    contains "/" stem = false
    ∧ fname_of Sample.url1 = stem +:+ ".gkg.csv.zip"
    ∧ zip_path_of (Sample.args []) Sample.task1
      = raw_dir_of (Sample.args []) 2015 ++ [stem +:+ ".gkg.csv.zip"]
    ∧ csv_path_of (Sample.args []) Sample.task1
      = year_dir_of (Sample.args []) 2015 ++ [stem +:+ ".gkg.csv"].
Proof.
  apply (task_paths (Sample.args []) Sample.task1). by vm_compute.
Defined.

Lemma plain_name_spec (s : string) :
  plain_name s = true ↔ contains "/" s = false ∧ s ≠ "" ∧ s ≠ ".".
Proof.
  unfold plain_name.
  rewrite !andb_true_iff, negb_true_iff, !bool_decide_eq_true. tauto.
Qed.

Lemma literal_name_plain (s : string) :
  literal_name s = true → plain_name s = true.
Proof. unfold literal_name. rewrite !andb_true_iff. tauto. Qed.

Lemma segments_name (s : string) :
  plain_name s = true → PathLib.segments s = [s].
Proof.
  intros (Hs & Hne & Hdot)%plain_name_spec. unfold PathLib.segments, Py.split_on.
  rewrite (split_on_go_plain _ _ _ Hs). change ("" +:+ s) with s.
  by rewrite filter_cons, decide_True.
Qed.

Lemma joinpath_name (p : Path) (s : string) :
  plain_name s = true → PathLib.joinpath p s = p ++ [s].
Proof.
  intros Hp. pose proof (segments_name s Hp) as Hseg.
  apply plain_name_spec in Hp as (Hs & Hne & _).
  destruct s as [|c s]; [done|].
  cbn [contains] in Hs. apply orb_false_iff in Hs as [Hc _].
  apply bool_decide_eq_false in Hc.
  unfold PathLib.joinpath.
  destruct c as [[] [] [] [] [] [] [] []]; try (by rewrite Hseg); done.
Qed.

(** The decimal text of a number holds digits only. *)
Lemma pretty_N_go_contains (c : ascii) (x : N) (s : string) :
  (∀ d, pretty_N_char d ≠ c) →
  contains c (pretty_N_go x s) = contains c s.
Proof.
  intros Hc. revert s. induction (N.lt_wf_0 x) as [x _ IH]; intros s.
  destruct (decide (x = 0)%N) as [->|Hx]; [by rewrite pretty_N_go_0|].
  rewrite pretty_N_go_step by lia.
  rewrite IH by (apply N.div_lt; lia).
  cbn [contains]. by rewrite bool_decide_eq_false_2.
Qed.

Lemma pretty_N_go_length (x : N) (s : string) :
  (String.length s ≤ String.length (pretty_N_go x s))%nat.
Proof.
  revert s. induction (N.lt_wf_0 x) as [x _ IH]; intros s.
  destruct (decide (x = 0)%N) as [->|Hx]; [by rewrite pretty_N_go_0|].
  rewrite pretty_N_go_step by lia.
  etrans; [|apply IH, N.div_lt; lia]. cbn. lia.
Qed.

Lemma pretty_N_char_not (c : ascii) :
  Ascii.is_nat c = None → ∀ d, pretty_N_char d ≠ c.
Proof.
  intros Hc d Hd. subst c. unfold pretty_N_char in Hc.
  repeat case_match; discriminate.
Qed.

Lemma pretty_N_plain (x : N) : plain_name (pretty x) = true.
Proof.
  apply plain_name_spec. unfold pretty, pretty_N.
  destruct (decide (x = 0)%N) as [->|Hx]; [done|].
  assert (contains "." (pretty_N_go x "") = false) as Hdot
    by (by rewrite pretty_N_go_contains by by apply pretty_N_char_not).
  split; [by rewrite pretty_N_go_contains by by apply pretty_N_char_not|].
  split.
  - rewrite pretty_N_go_step by lia. intros Heq.
    pose proof (pretty_N_go_length (x `div` 10)
                  (String (pretty_N_char (x `mod` 10)) "")) as Hl.
    rewrite Heq in Hl. cbn in Hl. lia.
  - intros Heq. by rewrite Heq in Hdot.
Qed.

(** [str(year)] is a plain name, for every integer. *)
Lemma str_plain (z : Z) : plain_name (Py.str z) = true.
Proof.
  unfold Py.str, pretty, pretty_Z. destruct z as [|p|p].
  - done.
  - apply (pretty_N_plain (N.pos p)).
  - pose proof (pretty_N_plain (N.pos p)) as (Hs & Hne & Hdot)%plain_name_spec.
    apply plain_name_spec.
    change (pretty p) with (pretty (N.pos p)).
    split; [by rewrite contains_app, Hs|].
    split; [done|].
    intros Heq. rewrite app_cons in Heq. discriminate.
Qed.

(** X18: what the download phase stores, the extraction phase finds.
    With a raw subdirectory that is a literal name (one path segment,
    not empty, neither dot nor dot-dot, with none of the pattern
    characters of [rglob]), the archive of a task
    of the manifest lies at [OUTPUT_ROOT/<year>/<raw>/<file>]; once it is
    on the disk, the scan of the extraction phase lists it, and the
    directory name that its year filter reads is the year of the task as
    [str] prints it. *)
Theorem stored_archive_is_found (args : Args) (task : Task) (t : FS) :
  Py.endswith task.1.2 ".gkg.csv.zip" = true →
  literal_name (RAW_SUBDIR args) = true →
  is_Some (t !! zip_path_of args task) →
  zip_path_of args task
  = OUTPUT_ROOT args ++ [Py.str task.2; RAW_SUBDIR args; fname_of task.1.2]
  ∧ zip_path_of args task ∈ rglob (OUTPUT_ROOT args) (RAW_SUBDIR args) t
  ∧ PathLib.part_from_end (zip_path_of args task) 3 = Some (Py.str task.2).
Proof.
  intros Hurl Hraw%literal_name_plain Hin.
  destruct (task_paths_stem args task Hurl) as (stem & Hstem & Hname & Hzip).
  assert (zip_path_of args task
          = OUTPUT_ROOT args ++ [Py.str task.2; RAW_SUBDIR args; fname_of task.1.2])
    as Hpath.
  { rewrite Hzip, Hname. unfold raw_dir_of, year_dir_of.
    rewrite (joinpath_name _ _ (str_plain task.2)), (joinpath_name _ _ Hraw).
    by rewrite <- !app_assoc. }
  split; [exact Hpath|].
  generalize dependent (OUTPUT_ROOT args). intros root Hpath.
  rewrite Hpath. split.
  - apply elem_of_rglob. rewrite <- Hpath. split; [exact Hin|]. rewrite Hpath.
    unfold glob_match. rewrite (segments_name _ Hraw).
    rewrite take_app_length, drop_app_length. cbn [length drop take last default].
    rewrite !bool_decide_eq_true_2 by (done || lia). cbn [andb].
    replace (PathLib.is_abs root
             || negb (PathLib.is_abs
                        (root ++ [Py.str task.2; RAW_SUBDIR args; fname_of task.1.2])))
      with true.
    2:{ destruct root as [|r root]; [|cbn; by destruct (bool_decide (r = "/"))].
        cbn. pose proof (str_plain task.2) as (Hs & _)%plain_name_spec.
        rewrite bool_decide_eq_false_2; [done|]. intros Heq. by rewrite Heq in Hs. }
    cbn. rewrite Hname. apply endswith_iff.
    exists (stem +:+ ".gkg.csv"). by rewrite string_app_assoc.
  - unfold PathLib.part_from_end. rewrite length_app. cbn [length].
    rewrite bool_decide_eq_true_2 by lia.
    replace (length root + 3 - 3)%nat with (length root + 0)%nat by lia.
    by rewrite lookup_app_r, Nat.add_0_r, Nat.sub_diag by lia.
Qed.

Lemma stored_archive_is_found_witness :
  zip_path_of (Sample.args []) Sample.task1
  = OUTPUT_ROOT (Sample.args [])
    ++ [Py.str 2015; RAW_SUBDIR (Sample.args []); fname_of Sample.url1]
  ∧ zip_path_of (Sample.args []) Sample.task1
    ∈ rglob (OUTPUT_ROOT (Sample.args [])) (RAW_SUBDIR (Sample.args []))
            Sample.disk_with_archive
  ∧ PathLib.part_from_end (zip_path_of (Sample.args []) Sample.task1) 3
    = Some (Py.str 2015).
Proof.
  apply (stored_archive_is_found (Sample.args []) Sample.task1
           Sample.disk_with_archive).
  - by vm_compute.
  - by vm_compute.
  - vm_compute. eauto.
Defined.

(** ** The year, written and read back *)

Lemma digit_pretty_N_char (d : N) :
  (d < 10)%N → Py.digit (pretty_N_char d) = Some (Z.of_N d).
Proof.
  intros Hd.
  assert (d = 0 ∨ d = 1 ∨ d = 2 ∨ d = 3 ∨ d = 4 ∨ d = 5 ∨ d = 6 ∨ d = 7
          ∨ d = 8 ∨ d = 9)%N as Hcases by lia.
  repeat destruct Hcases as [->|Hcases]; try reflexivity. by subst.
Qed.

(** Reading the digits that [str] wrote for [x] on top of what was read
    before. *)
Lemma int_digits_pretty_N_go (x : N) :
  (0 < x)%N →
  ∀ s acc seen, ∃ k : Z,
    0 ≤ k
    ∧ Py.int_digits acc seen (pretty_N_go x s)
      = Py.int_digits (acc * 10 ^ k + Z.of_N x) true s.
Proof.
  induction (N.lt_wf_0 x) as [x _ IH]. intros Hx s acc seen.
  rewrite pretty_N_go_step by done.
  pose proof (N.mod_lt x 10 ltac:(lia)) as Hmod.
  pose proof (N.div_mod x 10 ltac:(lia)) as Hdiv.
  destruct (decide (x `div` 10 = 0)%N) as [H0|H0].
  - rewrite H0, pretty_N_go_0. exists 1. split; [lia|].
    cbn [Py.int_digits]. rewrite (digit_pretty_N_char _ Hmod).
    f_equal. lia.
  - destruct (IH (x `div` 10)%N ltac:(apply N.div_lt; lia) ltac:(lia)
                (String (pretty_N_char (x `mod` 10)) s) acc seen)
      as (k & Hk & ->).
    exists (k + 1). split; [lia|].
    cbn [Py.int_digits]. rewrite (digit_pretty_N_char _ Hmod).
    f_equal. rewrite Z.pow_add_r by lia. lia.
Qed.

Lemma all_chars_pretty_N_go (f : ascii → bool) (x : N) (s : string) :
  (∀ d, f (pretty_N_char d) = true) →
  all_chars f s = true → all_chars f (pretty_N_go x s) = true.
Proof.
  intros Hf. revert s. induction (N.lt_wf_0 x) as [x _ IH]; intros s Hs.
  destruct (decide (x = 0)%N) as [->|Hx]; [by rewrite pretty_N_go_0|].
  rewrite pretty_N_go_step by lia.
  apply IH; [apply N.div_lt; lia|]. cbn [all_chars]. by rewrite Hf, Hs.
Qed.

Lemma is_digit_pretty_N_char (d : N) : is_digit (pretty_N_char d) = true.
Proof. unfold pretty_N_char. by repeat case_match. Qed.

Lemma pretty_N_digits (x : N) : all_chars is_digit (pretty x) = true.
Proof.
  unfold pretty, pretty_N. destruct (decide (x = 0)%N); [done|].
  apply all_chars_pretty_N_go; [apply is_digit_pretty_N_char|done].
Qed.

Lemma is_digit_not_space (c : ascii) : is_digit c = true → Py.isspace_int c = false.
Proof. destruct c as [[] [] [] [] [] [] [] []]; done. Qed.

Lemma lstrip_digits (s : string) :
  all_chars is_digit s = true → Py.lstrip_int s = s.
Proof.
  destruct s as [|c s]; [done|]. cbn [all_chars Py.lstrip_int].
  intros [Hc _]%andb_true_iff. by rewrite (is_digit_not_space c Hc).
Qed.

Lemma rstrip_digits (s : string) :
  all_chars is_digit s = true → Py.rstrip_int s = s.
Proof.
  induction s as [|c s IH]; [done|]. cbn [all_chars Py.rstrip_int].
  intros [Hc Hs]%andb_true_iff. rewrite (IH Hs).
  destruct (decide (s = "")) as [->|Hne]; [|done].
  by rewrite (is_digit_not_space c Hc).
Qed.

Lemma int_pretty_N (x : N) : Py.int (pretty x) = Some (Z.of_N x).
Proof.
  pose proof (pretty_N_digits x) as Hd.
  assert (Py.int_digits 0 false (pretty x) = Some (Z.of_N x)) as Hint.
  { unfold pretty, pretty_N. destruct (decide (x = 0)%N) as [->|Hx]; [done|].
    destruct (int_digits_pretty_N_go x ltac:(lia) "" 0 false) as (k & _ & ->).
    cbn [Py.int_digits]. f_equal; lia. }
  unfold Py.int.
  rewrite (lstrip_digits _ Hd), (rstrip_digits _ Hd).
  destruct (pretty x) as [|c s]; [done|].
  cbn [all_chars] in Hd. apply andb_true_iff in Hd as [Hc _].
  destruct c as [[] [] [] [] [] [] [] []]; try discriminate; exact Hint.
Qed.

Lemma int_str (y : Z) : Py.int (Py.str y) = Some y.
Proof.
  destruct y as [|p|p].
  - reflexivity.
  - apply (int_pretty_N (N.pos p)).
  - unfold Py.str, pretty, pretty_Z. change (pretty p) with (pretty (N.pos p)).
    pose proof (pretty_N_digits (N.pos p)) as Hd.
    pose proof (int_pretty_N (N.pos p)) as Hint.
    unfold Py.int in *.
    rewrite (lstrip_digits _ Hd), (rstrip_digits _ Hd) in Hint.
    rewrite app_cons. change ("" +:+ pretty (N.pos p)) with (pretty (N.pos p)).
    cbn [Py.lstrip_int Py.isspace_int].
    assert (Py.rstrip_int (String "-" (pretty (N.pos p)))
            = String "-" (pretty (N.pos p))) as ->.
    { cbn [Py.rstrip_int]. rewrite (rstrip_digits _ Hd).
      destruct (decide (pretty (N.pos p) = "")) as [Heq|]; [|done].
      pose proof (pretty_N_plain (N.pos p)) as (_ & Hne & _)%plain_name_spec.
      done. }
    destruct (pretty (N.pos p)) as [|c s] eqn:Hp.
    { pose proof (pretty_N_plain (N.pos p)) as (_ & Hne & _)%plain_name_spec.
      by rewrite Hp in Hne. }
    cbn [all_chars] in Hd. apply andb_true_iff in Hd as [Hc _].
    assert (Py.int_digits 0 false (String c s) = Some (Z.pos p)) as ->.
    { destruct c as [[] [] [] [] [] [] [] []]; try discriminate; exact Hint. }
    reflexivity.
Qed.

(** X19: a year survives being written as a directory name and read
    back: [int(str(y)) = y] for every integer, so the year that the
    extraction phase reads off the path of a stored archive is the year
    of the task that stored it. *)
Theorem year_read_back (args : Args) (task : Task) :
  (∀ y : Z, Py.int (Py.str y) = Some y)
  ∧ (Py.endswith task.1.2 ".gkg.csv.zip" = true →
     plain_name (RAW_SUBDIR args) = true →
     dir_year (zip_path_of args task) = Some task.2).
Proof.
  split; [apply int_str|].
  intros Hurl Hraw.
  destruct (task_paths_stem args task Hurl) as (stem & _ & Hname & Hzip).
  unfold dir_year.
  assert (PathLib.part_from_end (zip_path_of args task) 3 = Some (Py.str task.2))
    as ->.
  { rewrite Hzip. unfold raw_dir_of, year_dir_of.
    rewrite (joinpath_name _ _ (str_plain task.2)), (joinpath_name _ _ Hraw).
    rewrite <- !app_assoc. cbn [app].
    unfold PathLib.part_from_end. rewrite length_app. cbn [length].
    rewrite bool_decide_eq_true_2 by lia.
    replace (length (OUTPUT_ROOT args) + 3 - 3)%nat
      with (length (OUTPUT_ROOT args) + 0)%nat by lia.
    by rewrite lookup_app_r, Nat.add_0_r, Nat.sub_diag by lia. }
  cbn. apply int_str.
Qed.

Lemma stored_archive_found_lemma (args : Args) (task : Task) (t : FS) :
  Py.endswith task.1.2 ".gkg.csv.zip" = true →
  plain_name (RAW_SUBDIR args) = true →
  is_Some (t !! zip_path_of args task) →
  zip_path_of args task ∈ rglob (OUTPUT_ROOT args) (RAW_SUBDIR args) t
  ∧ dir_year (zip_path_of args task) = Some task.2.
Proof.
  intros Hurl Hraw Hin.
  destruct (task_paths_stem args task Hurl) as (stem & Hstem & Hname & Hzip).
  assert (zip_path_of args task
          = OUTPUT_ROOT args ++ [Py.str task.2; RAW_SUBDIR args; fname_of task.1.2])
    as Hpath.
  { rewrite Hzip, Hname. unfold raw_dir_of, year_dir_of.
    rewrite (joinpath_name _ _ (str_plain task.2)), (joinpath_name _ _ Hraw).
    by rewrite <- !app_assoc. }
  split.
  - apply elem_of_rglob. split; [exact Hin|].
    generalize dependent (OUTPUT_ROOT args). intros root Hpath.
    rewrite Hpath.
    unfold glob_match. rewrite (segments_name _ Hraw).
    rewrite take_app_length, drop_app_length. cbn [length drop take last default].
    rewrite !bool_decide_eq_true_2 by (done || lia). cbn [andb].
    replace (PathLib.is_abs root
             || negb (PathLib.is_abs
                        (root ++ [Py.str task.2; RAW_SUBDIR args; fname_of task.1.2])))
      with true.
    2:{ destruct root as [|r root]; [|cbn; by destruct (bool_decide (r = "/"))].
        cbn. pose proof (str_plain task.2) as (Hs & _)%plain_name_spec.
        rewrite bool_decide_eq_false_2; [done|]. intros Heq. by rewrite Heq in Hs. }
    cbn. rewrite Hname. apply endswith_iff.
    exists (stem +:+ ".gkg.csv"). by rewrite string_app_assoc.
  - unfold dir_year. rewrite Hpath.
    unfold PathLib.part_from_end. rewrite length_app. cbn [length].
    rewrite bool_decide_eq_true_2 by lia.
    replace (length (OUTPUT_ROOT args) + 3 - 3)%nat
      with (length (OUTPUT_ROOT args) + 0)%nat by lia.
    rewrite lookup_app_r, Nat.add_0_r, Nat.sub_diag by lia. cbn.
    apply int_str.
Qed.

(** X20: the two phases select the same archives.  Take a task of the
    manifest whose year, between 0 and 9999, passed the year filter of
    the download phase, and whose archive is on the disk.  When the scan
    of the extraction phase, run with the same bounds and a raw
    subdirectory that is a literal name (one path segment, not empty,
    neither dot nor dot-dot, with none of the pattern characters of
    [rglob]), raises nothing, it selects that archive. *)
Theorem downloaded_archive_is_selected (args : Args) (task : Task) (t : FS)
    (zip_paths : list Path) :
  Py.endswith task.1.2 ".gkg.csv.zip" = true →
  literal_name (RAW_SUBDIR args) = true →
  0 ≤ task.2 ≤ 9999 →
  year_in_range (year_from args) (year_to args) task.2 = true →
  is_Some (t !! zip_path_of args task) →
  discover args t = inr zip_paths →
  zip_path_of args task ∈ zip_paths.
Proof.
  intros Hurl Hraw%literal_name_plain Hy Hrange Hin Hd.
  destruct (stored_archive_found_lemma args task t Hurl Hraw Hin) as [Hglob Hyear].
  unfold discover in Hd.
  destruct (Py.truthy (year_from args) || Py.truthy (year_to args)).
  - apply year_filter_kept in Hd as ->.
    apply list_elem_of_filter. split; [|exact Hglob].
    unfold dir_year_ok. rewrite Hyear.
    by rewrite (year_tests_agree _ _ _ Hy).
  - by injection Hd as <-.
Qed.

Lemma downloaded_archive_is_selected_witness :
  zip_path_of args_extract_from_2015 Sample.task1 ∈ [Sample.zip1].
Proof.
  apply (downloaded_archive_is_selected args_extract_from_2015 Sample.task1
           Sample.disk_with_archive [Sample.zip1]).
  - by vm_compute.
  - by vm_compute.
  - cbn. lia.
  - by vm_compute.
  - vm_compute. eauto.
  - by vm_compute.
Defined.

(** X21: an archive without a third parent ends the extraction phase
    halfway.  The archives submitted before it are extracted, it and the
    archives after it are not, and the [IndexError] of [zp.parents[2]]
    is not caught. *)
Theorem short_path_ends_batch (env : Env) (before after : list Path)
    (zp : Path) (w : World) :
  Forall (λ p, is_Some (PathLib.parents p 2)) before →
  PathLib.parents zp 2 = None →
  let r := submit_extractions env (before ++ zp :: after) w in
  r.2 = Uncaught "IndexError"
  ∧ unzips r.1
    = unzips w ++ ((λ p, (p, take (length p - 3) p)) <$> before).
Proof.
  intros Hall Hzp. revert w.
  induction Hall as [|p ps [dir Hdir] _ IH]; intros w; cbn [app submit_extractions].
  - rewrite Hzp. cbn. by rewrite app_nil_r.
  - rewrite Hdir. specialize (IH (extract_one env p dir w)). cbn zeta in IH.
    destruct IH as [-> ->].
    destruct (extract_one_trace env p dir w) as [-> _].
    unfold PathLib.parents in Hdir. case_bool_decide; [|discriminate].
    injection Hdir as <-.
    rewrite <- app_assoc. cbn [fmap list_fmap app].
    replace (length p - 1 - 2)%nat with (length p - 3)%nat by lia. done.
Qed.

Lemma short_path_ends_batch_witness :
  let r := submit_extractions Sample.env
             ([Sample.zip1] ++ ["rawdata"; "stray.zip"] :: [zip_latest])
             (Sample.start disk_latest) in
  r.2 = Uncaught "IndexError"
  ∧ unzips r.1 = [] ++ ((λ p, (p, take (length p - 3) p)) <$> [Sample.zip1]).
Proof.
  apply (short_path_ends_batch Sample.env [Sample.zip1] [zip_latest]
           ["rawdata"; "stray.zip"] (Sample.start disk_latest)).
  - repeat constructor. by eexists.
  - reflexivity.
Defined.
